(** * A shallow embedding of the document-access layer of [src/index.js]

    The Express handlers of the admin console are modelled as functions of
    an explicit state (the module-level variables [mongoClient], [db],
    [isConnected], whether the client behind [db] has been closed, and the
    contents of the MongoDB server) and a request.  JavaScript built-ins and
    server-side behaviour that the repository only calls ([JSON.parse],
    [new RegExp], [new URL], [Number], [decodeURIComponent], the server's
    regular-expression engine, its BSON sort order, its update and query
    validation, ...) are gathered in the record [builtins]; theorems
    quantify over every such record, and concrete instances are given for
    the concrete runs.  The repository does not pin its dependencies; the
    versions modelled are Express 4, the MongoDB Node.js driver 5 with
    bson 5, and a MongoDB 5 server. *)

From Stdlib Require Import ZArith QArith Qround String Ascii List Bool Btauto Sorted.
From stdpp Require Import base list sorting.
Import ListNotations.

Local Open Scope Z_scope.
Local Open Scope string_scope.
#[local] Set Warnings "-register-all".

(** ** Values: JSON / BSON values as the code handles them *)

Inductive jval : Type :=
| JNull
| JBool (b : bool)
| JNum (n : Z)
| JStr (s : string)
| JArr (l : list jval)
| JObj (o : list (string * jval))
| JOid (hex : string)          (** [new ObjectId(hex)], 24 lower-case hex digits *)
| JDate (ms : Z)               (** [new Date()], milliseconds since the epoch *)
| JRegex (pat flags : string). (** [new RegExp(pat, flags)] *)

(** A JavaScript object / BSON document: keys in insertion order. *)
Definition obj := list (string * jval).

Fixpoint jval_eqb (a b : jval) {struct a} : bool :=
  match a, b with
  | JNull, JNull => true
  | JBool x, JBool y => Bool.eqb x y
  | JNum x, JNum y => Z.eqb x y
  | JStr x, JStr y => String.eqb x y
  | JArr xs, JArr ys =>
      (fix go (xs ys : list jval) : bool :=
         match xs, ys with
         | [], [] => true
         | x :: xs', y :: ys' => jval_eqb x y && go xs' ys'
         | _, _ => false
         end) xs ys
  | JObj xs, JObj ys =>
      (fix go (xs ys : list (string * jval)) : bool :=
         match xs, ys with
         | [], [] => true
         | (k, x) :: xs', (k', y) :: ys' =>
             String.eqb k k' && jval_eqb x y && go xs' ys'
         | _, _ => false
         end) xs ys
  | JOid x, JOid y => String.eqb x y
  | JDate x, JDate y => Z.eqb x y
  | JRegex p f, JRegex p' f' => String.eqb p p' && String.eqb f f'
  | _, _ => false
  end.

(** *** JavaScript object operations *)

(** [o[k]]: [None] is [undefined]. *)
Fixpoint obj_get (k : string) (o : obj) : option jval :=
  match o with
  | [] => None
  | (k', v) :: r => if String.eqb k k' then Some v else obj_get k r
  end.

(** [o[k] = v]: an existing key keeps its position, a new one is appended. *)
Fixpoint obj_set (k : string) (v : jval) (o : obj) : obj :=
  match o with
  | [] => [(k, v)]
  | (k', v') :: r =>
      if String.eqb k k' then (k', v) :: r else (k', v') :: obj_set k v r
  end.

(** [delete o[k]] *)
Definition obj_delete (k : string) (o : obj) : obj :=
  List.filter (fun kv => negb (String.eqb k kv.1)) o.

(** The own enumerable properties a spread [...x] copies. *)
Fixpoint nat_to_string_aux (fuel n : nat) (acc : string) : string :=
  match fuel with
  | O => acc
  | S f =>
      let acc' := String (ascii_of_nat (48 + Nat.modulo n 10)) acc in
      if Nat.ltb n 10 then acc' else nat_to_string_aux f (Nat.div n 10) acc'
  end.

Definition nat_to_string (n : nat) : string := nat_to_string_aux (S n) n EmptyString.

Fixpoint indexed {A} (i : nat) (l : list A) : list (string * A) :=
  match l with
  | [] => []
  | x :: r => (nat_to_string i, x) :: indexed (S i) r
  end.

Definition spread_source (v : jval) : obj :=
  match v with
  | JObj o => o
  | JArr l => indexed 0 l
  | JStr s => indexed 0 (map (fun c => JStr (String c EmptyString)) (list_ascii_of_string s))
  | _ => []   (** null, booleans, numbers: nothing is copied *)
  end.

(** [{ ...acc, ...src }] *)
Definition obj_spread (acc src : obj) : obj :=
  fold_left (fun o kv => obj_set kv.1 kv.2 o) src acc.

Definition nul : ascii := ascii_of_nat 0.
Definition bslash : ascii := ascii_of_nat 92.

Definition has_char (c : ascii) (s : string) : bool :=
  existsb (Ascii.eqb c) (list_ascii_of_string s).

(** ** ObjectId (bson 5, the BSON library of the 5.x driver) *)

Definition is_hex_digit (c : ascii) : bool :=
  let n := nat_of_ascii c in
  (Nat.leb 48 n && Nat.leb n 57) || (Nat.leb 65 n && Nat.leb n 70)
  || (Nat.leb 97 n && Nat.leb n 102).

(** Strings are kept as their UTF-8 bytes: a JavaScript string of length 12
    whose UTF-8 encoding has 12 bytes is a string of 12 one-byte (ASCII)
    characters. *)
Definition is_ascii7 (c : ascii) : bool := Nat.ltb (nat_of_ascii c) 128.

(** [ObjectId.isValid(id)] for a string [id], i.e. [new ObjectId(id)] does
    not throw: 24 hexadecimal digits, or 12 characters of one byte each. *)
Definition ObjectId_isValid (id : string) : bool :=
  (Nat.eqb (String.length id) 24 && forallb is_hex_digit (list_ascii_of_string id))
  || (Nat.eqb (String.length id) 12 && forallb is_ascii7 (list_ascii_of_string id)).

Definition lower_ascii (c : ascii) : ascii :=
  let n := nat_of_ascii c in
  if Nat.leb 65 n && Nat.leb n 90 then ascii_of_nat (n + 32) else c.

Definition hex_digit (n : nat) : ascii :=
  ascii_of_nat (if Nat.ltb n 10 then 48 + n else 87 + n).

Definition hex_of_bytes (l : list ascii) : list ascii :=
  flat_map (fun c => [hex_digit (Nat.div (nat_of_ascii c) 16);
                      hex_digit (Nat.modulo (nat_of_ascii c) 16)]) l.

(** [new ObjectId(id)] for a valid [id]: its 12 bytes, kept as lower-case
    hex.  A 12-character string gives its own bytes (the constructor tests
    the length 12 first), 24 hex digits the bytes they encode. *)
Definition new_ObjectId (id : string) : jval :=
  JOid (string_of_list_ascii
          (if Nat.eqb (String.length id) 12 then hex_of_bytes (list_ascii_of_string id)
           else map lower_ascii (list_ascii_of_string id))).

(** ** JavaScript numbers

    A double is kept as the rational it denotes; [NNaN] and [NInf] are the
    non-finite values.  Every arithmetic result is rounded to the nearest
    double by [round_Q].  The sign of a zero is not tracked. *)

Inductive jsnum : Type :=
| NNum (q : Q)
| NNaN
| NInf (neg : bool).

(** For [a, b > 0]: the exponent [e] with [2^e <= a/b < 2^(e+1)]. *)
Definition binade (a b : Z) : Z :=
  if Z.leb b a then Z.log2 (a / b) else - Z.log2_up ((b + a - 1) / a).

(** [a/b], for [a, b > 0], rounded to 53 significant bits, ties to even,
    with the subnormal range below 2^-1022: [(m, u)] stands for [m * 2^u]. *)
Definition round_pos (a b : Z) : Z * Z :=
  let u := Z.max (binade a b - 52) (-1074) in
  let num := if Z.leb u 0 then a * 2 ^ (- u) else a in
  let den := if Z.leb u 0 then b else b * 2 ^ u in
  let m0 := num / den in
  let r2 := 2 * (num mod den) in
  (if Z.ltb r2 den then m0 else if Z.ltb den r2 then m0 + 1
   else if Z.even m0 then m0 else m0 + 1, u).

(** The IEEE 754 double nearest to [q] (ties to even); an infinity when the
    rounded magnitude reaches 2^1024. *)
Definition round_Q (q : Q) : jsnum :=
  let a := Z.abs (Qnum q) in
  let neg := Z.ltb (Qnum q) 0 in
  if Z.eqb a 0 then NNum 0 else
  let '(m, u) := round_pos a (Zpos (Qden q)) in
  if Z.ltb 0 u && Z.leb (2 ^ 1024) (m * 2 ^ u) then NInf neg
  else
    let v := if Z.leb u 0 then Qmake m (Z.to_pos (2 ^ (- u))) else inject_Z (m * 2 ^ u) in
    NNum (Qred (if neg then Qopp v else v)).

(** The StrWhiteSpaceChar set of ECMAScript, as UTF-8: tab, line feed,
    vertical tab, form feed, carriage return and space, ... *)
Definition js_space (c : ascii) : bool :=
  let n := nat_of_ascii c in (Nat.eqb n 32) || (Nat.leb 9 n && Nat.leb n 13).

(** ... U+00A0 (C2 A0), ... *)
Definition space2 (c1 c2 : ascii) : bool :=
  Nat.eqb (nat_of_ascii c1) 194 && Nat.eqb (nat_of_ascii c2) 160.

(** ... and U+1680, U+2000 to U+200A, U+2028, U+2029, U+202F, U+205F,
    U+3000, U+FEFF. *)
Definition space3 (c1 c2 c3 : ascii) : bool :=
  let x := nat_of_ascii c1 in let y := nat_of_ascii c2 in let z := nat_of_ascii c3 in
  (Nat.eqb x 225 && Nat.eqb y 154 && Nat.eqb z 128)
  || (Nat.eqb x 226 && Nat.eqb y 128
      && ((Nat.leb 128 z && Nat.leb z 138) || Nat.eqb z 168 || Nat.eqb z 169 || Nat.eqb z 175))
  || (Nat.eqb x 226 && Nat.eqb y 129 && Nat.eqb z 159)
  || (Nat.eqb x 227 && Nat.eqb y 128 && Nat.eqb z 128)
  || (Nat.eqb x 239 && Nat.eqb y 187 && Nat.eqb z 191).

(** Leading white space, as [parseInt] strips it. *)
Fixpoint drop_space (l : list ascii) : list ascii :=
  match l with
  | c :: r =>
      if js_space c then drop_space r
      else match r with
           | c2 :: r2 =>
               if space2 c c2 then drop_space r2
               else match r2 with
                    | c3 :: r3 => if space3 c c2 c3 then drop_space r3 else l
                    | [] => l
                    end
           | [] => l
           end
  | [] => []
  end.

Definition digit_value (radix : nat) (c : ascii) : option nat :=
  let n := nat_of_ascii c in
  let d := if Nat.leb 48 n && Nat.leb n 57 then Some (n - 48)%nat
           else if Nat.leb 97 n && Nat.leb n 122 then Some (n - 87)%nat
           else if Nat.leb 65 n && Nat.leb n 90 then Some (n - 55)%nat
           else None in
  match d with Some v => if Nat.ltb v radix then Some v else None | None => None end.

(** The longest prefix of digits, read in [radix]; [None] when it is empty. *)
Fixpoint digits_prefix (radix : nat) (l : list ascii) (acc : option Z) : option Z :=
  match l with
  | [] => acc
  | c :: r =>
      match digit_value radix c with
      | Some v =>
          digits_prefix radix r
            (Some (Z.of_nat radix * match acc with Some a => a | None => 0 end + Z.of_nat v))
      | None => acc
      end
  end.

(** [parseInt(s)] (no radix argument): the digits read, rounded to a double. *)
Definition parseInt (s : string) : jsnum :=
  let l := drop_space (list_ascii_of_string s) in
  let '(neg, l) := match l with
                   | "-"%char :: r => (true, r)
                   | "+"%char :: r => (false, r)
                   | _ => (false, l)
                   end in
  let '(radix, l) := match l with
                     | "0"%char :: x :: r =>
                         if (Ascii.eqb x "x"%char || Ascii.eqb x "X"%char)%bool
                         then (16%nat, r) else (10%nat, l)
                     | _ => (10%nat, l)
                     end in
  match digits_prefix radix l None with
  | Some z => round_Q (inject_Z (if neg then - z else z))
  | None => NNaN
  end.

Definition js_neg (a : jsnum) : jsnum :=
  match a with NNum x => NNum (- x)%Q | NInf s => NInf (negb s) | NNaN => NNaN end.

Definition Q_negative (x : Q) : bool := negb (Qle_bool 0 x).

Definition js_mul (a b : jsnum) : jsnum :=
  match a, b with
  | NNum x, NNum y => round_Q (x * y)%Q
  | NNaN, _ | _, NNaN => NNaN
  | NInf s, NNum y | NNum y, NInf s =>
      if Qeq_bool y 0 then NNaN else NInf (xorb s (Q_negative y))
  | NInf s, NInf t => NInf (xorb s t)
  end.

Definition js_add (a b : jsnum) : jsnum :=
  match a, b with
  | NNum x, NNum y => round_Q (x + y)%Q
  | NNaN, _ | _, NNaN => NNaN
  | NInf s, NNum _ | NNum _, NInf s => NInf s
  | NInf s, NInf t => if Bool.eqb s t then NInf s else NNaN
  end.

(** [x - 1] *)
Definition js_sub1 (a : jsnum) : jsnum :=
  match a with NNum x => round_Q (x - 1)%Q | n => n end.

(** [total / x] for a count [total >= 0]. *)
Definition js_div_count (total : Z) (x : jsnum) : jsnum :=
  match x with
  | NNum y =>
      (** the sign of a zero divisor is not tracked: +/-Infinity alike serialize as null *)
      if Qeq_bool y 0 then (if Z.eqb total 0 then NNaN else NInf false)
      else round_Q (inject_Z total / y)%Q
  | NNaN => NNaN
  | NInf _ => NNum 0
  end.

Definition Math_ceil (x : jsnum) : jsnum :=
  match x with NNum q => NNum (inject_Z (Qceiling q)) | n => n end.

(** [a < b] and [a > b] on numbers; NaN compares false. *)
Definition js_lt (a b : jsnum) : bool :=
  match a, b with
  | NNum x, NNum y => negb (Qle_bool y x)
  | NInf true, NNum _ | NNum _, NInf false | NInf true, NInf false => true
  | _, _ => false
  end.

(** How the server reads a double as a 64-bit integer ([safeNumberLong]):
    NaN is 0, values beyond the range are clamped, others truncated. *)
Definition safeNumberLong (x : jsnum) : Z :=
  match x with
  | NNaN => 0
  | NInf false => 2 ^ 63 - 1
  | NInf true => - 2 ^ 63
  | NNum q =>
      if Qle_bool (inject_Z (2 ^ 63)) q then 2 ^ 63 - 1
      else if Qle_bool q (inject_Z (- 2 ^ 63)) then - 2 ^ 63
      else if Qle_bool 0 q then Qfloor q else Qceiling q
  end.

(** ** [new RegExp(s, 'i')]

    [RegExp.prototype.source] as V8 writes it: [(?:)] for the empty pattern;
    otherwise a [/] outside a character class and not escaped gets a
    backslash, the line terminators (LF, CR, U+2028, U+2029, the last two
    as their UTF-8 bytes) are written as escapes, and a backslash before a
    line terminator is dropped.  The BSON regular expression the driver
    sends carries this source and the flags. *)

Definition line_sep (c1 c2 c3 : ascii) : option string :=
  if Nat.eqb (nat_of_ascii c1) 226 && Nat.eqb (nat_of_ascii c2) 128 then
    if Nat.eqb (nat_of_ascii c3) 168 then Some "u2028"
    else if Nat.eqb (nat_of_ascii c3) 169 then Some "u2029" else None
  else None.

Definition starts_line_terminator (l : list ascii) : bool :=
  match l with
  | c :: r =>
      Nat.eqb (nat_of_ascii c) 10 || Nat.eqb (nat_of_ascii c) 13
      || match r with
         | c2 :: c3 :: _ => match line_sep c c2 c3 with Some _ => true | None => false end
         | _ => false
         end
  | [] => false
  end.

Fixpoint escape_source (in_class : bool) (l : list ascii) : list ascii :=
  match l with
  | [] => []
  | c :: r =>
      if Ascii.eqb c bslash then
        if starts_line_terminator r then escape_source in_class r
        else match r with
             | c2 :: r2 => c :: c2 :: escape_source in_class r2
             | [] => [c]
             end
      else if Ascii.eqb c "/"%char && negb in_class then bslash :: c :: escape_source in_class r
      else if Ascii.eqb c "["%char then c :: escape_source true r
      else if Ascii.eqb c "]"%char then c :: escape_source false r
      else if Nat.eqb (nat_of_ascii c) 10 then bslash :: "n"%char :: escape_source in_class r
      else if Nat.eqb (nat_of_ascii c) 13 then bslash :: "r"%char :: escape_source in_class r
      else match r with
           | c2 :: c3 :: r3 =>
               match line_sep c c2 c3 with
               | Some u => bslash :: list_ascii_of_string u ++ escape_source in_class r3
               | None => c :: escape_source in_class r
               end
           | _ => c :: escape_source in_class r
           end
  end.

Definition regexp_source (s : string) : string :=
  if String.eqb s EmptyString then "(?:)"
  else string_of_list_ascii (escape_source false (list_ascii_of_string s)).

(** ** Built-ins and server behaviour the code relies on *)

Record builtins : Type := {
  JSON_parse : string -> option jval;       (** [JSON.parse]; [None]: SyntaxError *)
  RegExp_ok : string -> bool;               (** [new RegExp(s, 'i')] does not throw *)
  regex_search : string -> string -> string -> bool;
      (** server: does [pattern] with [flags] match somewhere in the string *)
  top_operator : string -> jval -> obj -> bool;
      (** server: top-level query operators other than [$or] *)
  field_operator : string -> jval -> option jval -> bool;
      (** server: field query operators other than [$in] *)
  path_match : string -> jval -> obj -> bool;
      (** server: a clause on a dotted path ([a.b]), with its array traversal *)
  query_ok : obj -> bool;
      (** driver and server accept the query (BSON serialization, operator
          syntax such as an array for [$or] and for [$in], known operators) *)
  value_cmp : jval -> jval -> comparison;  (** server: BSON sort order *)
  sort_path_ok : string -> bool;
      (** server: a sort key other than [$natural] is a valid field path
          (not empty, no empty component, no component starting with [$],
          no NUL) *)
  sort_key_of : string -> bool -> obj -> jval;
      (** server: the key a document sorts by, for a path and a direction
          (descending: [true]): a missing field as null, an array by its
          least (ascending) or greatest (descending) element *)
  sort_fits : string -> Z -> Z -> list obj -> bool;
      (** server: the sort for this skip and limit over these documents stays
          within the in-memory sort limit *)
  first_batch : list obj -> nat;
      (** server: how many of these documents fit in the first batch of a
          reply (101 documents, 16 MiB) *)
  to_number : string -> jsnum;              (** ToNumber on a string *)
  URL_pathname : string -> option string;   (** [new URL(u).pathname]; [None]: TypeError *)
  MongoClient_ok : string -> bool;
      (** driver: [new MongoClient(url)] accepts the string (scheme, options) *)
  decodeURIComponent : string -> option string;  (** [None]: URIError *)
  nonstring_oid : jval -> option string;
      (** bson on a non-string [x]: [Some hex] when [ObjectId.isValid(x)],
          [hex] being [new ObjectId(x)] *)
  update_ok : obj -> bool;
      (** driver and server accept [{$set: s}] before looking for a document
          (BSON size and serialization, paths valid and not conflicting) *)
  server_set : obj -> obj -> option obj;
      (** server: [$set] of fields that are not all plain field names (dotted
          paths, positional paths, ...) on a document; [None]: the update fails *)
  doc_ok : obj -> bool
      (** server: an updated document can be stored (at most 16 MiB) *)
}.

(** ** Query evaluation by the server *)

Definition starts_with_dollar (k : string) : bool :=
  match k with String c _ => Ascii.eqb c "$"%char | EmptyString => false end.

Section Matching.
Context (B : builtins).

(** [{field: value}] equality; a missing field equals [null]; an array field
    also matches when one of its elements is equal. *)
Definition match_eq (v : option jval) (c : jval) : bool :=
  match v with
  | None => jval_eqb c JNull
  | Some x =>
      jval_eqb x c
      || match x with JArr l => existsb (fun e => jval_eqb e c) l | _ => false end
  end.

(** [{field: /pat/flags}] on one value: a string is searched; a stored
    regular expression matches when its pattern and flags are the same. *)
Definition regex_elem (p f : string) (e : jval) : bool :=
  match e with
  | JStr s => regex_search B p f s
  | JRegex p' f' => String.eqb p' p && String.eqb f' f
  | _ => false
  end.

(** [{field: /pat/flags}]: the value itself or one element of an array. *)
Definition match_regex (p f : string) (v : option jval) : bool :=
  match v with
  | Some (JArr l) => existsb (regex_elem p f) l
  | Some e => regex_elem p f e
  | None => false
  end.

Definition match_in_elem (v : option jval) (c : jval) : bool :=
  match c with JRegex p f => match_regex p f v | _ => match_eq v c end.

Definition match_field (v : option jval) (c : jval) : bool :=
  match c with
  | JRegex p f => match_regex p f v
  | JObj (((k, _) :: _) as ops) =>
      if starts_with_dollar k then
        forallb (fun kv =>
                   if String.eqb kv.1 "$in" then
                     match kv.2 with
                     | JArr cs => existsb (match_in_elem v) cs
                     | _ => false
                     end
                   else field_operator B kv.1 kv.2 v) ops
      else match_eq v c
  | _ => match_eq v c
  end.

(** One clause of a query.  Shapes the server rejects (a non-array [$or],
    [$in] on a non-array) evaluate to [false] here; [query_ok] rejects them
    before any document is looked at. *)
Fixpoint match_clause (k : string) (c : jval) (d : obj) {struct c} : bool :=
  if String.eqb k "$or" then
    match c with
    | JArr l =>
        (fix any (l : list jval) : bool :=
           match l with
           | [] => false
           | JObj q :: r =>
               (fix all (q : list (string * jval)) : bool :=
                  match q with
                  | [] => true
                  | (k', c') :: q' => match_clause k' c' d && all q'
                  end) q || any r
           | _ :: r => any r
           end) l
    | _ => false
    end
  else if starts_with_dollar k then top_operator B k c d
  else if has_char "."%char k then path_match B k c d
  else match_field (obj_get k d) c.

(** A query document is the conjunction of its top-level clauses. *)
Definition match_query (q : obj) (d : obj) : bool :=
  forallb (fun kv => match_clause kv.1 kv.2 d) q.

End Matching.

(** ** Server state and requests *)

(** Collections of one database, by name; documents in natural order. *)
Definition database := list (string * list obj).

(** The module-level variables [mongoClient], [db], [isConnected], and what
    the MongoDB server stores.  [db] is the [Db] handle of a client that is
    open, by database name; [db_closed] records that the variable [db] still
    holds a handle whose client has been closed (operations on it fail). *)
Record state : Type := mkState {
  mongoClient : bool;
  db : option string;
  db_closed : bool;
  isConnected : bool;
  server : string -> database
}.

Definition initial_state (srv : string -> database) : state :=
  mkState false None false false srv.

Fixpoint assoc_get {A} (k : string) (l : list (string * A)) : option A :=
  match l with
  | [] => None
  | (k', v) :: r => if String.eqb k k' then Some v else assoc_get k r
  end.

(** Replaces the entry of [k]; a missing key is left missing (writes to a
    collection that does not exist change nothing). *)
Fixpoint assoc_put {A} (k : string) (v : A) (l : list (string * A)) : list (string * A) :=
  match l with
  | [] => []
  | (k', v') :: r => if String.eqb k k' then (k', v) :: r else (k', v') :: assoc_put k v r
  end.

(** [db.collection(name)]: a collection that does not exist reads as empty. *)
Definition coll_docs (st : state) (dbn c : string) : list obj :=
  match assoc_get c (server st dbn) with Some l => l | None => [] end.

Definition set_coll (st : state) (dbn c : string) (l : list obj) : state :=
  mkState (mongoClient st) (db st) (db_closed st) (isConnected st)
    (fun d => if String.eqb d dbn then assoc_put c l (server st d) else server st d).

Inductive method : Type := GET | POST | PUT | DELETE.

(** What the server does when the connect handler talks to it. *)
Inductive connect_outcome : Type :=
| ConnectRefused      (** [mongoClient.connect()] rejects *)
| ConnectInfoFails    (** connected, but [serverInfo()] or [db.stats()] rejects *)
| ConnectOk.

(** A value of [req.query] as Express's query parser (qs) builds it: a
    string, an array ([a=1&a=2], [a[]=1]) or an object ([a[b]=1]). *)
Inductive qval : Type :=
| QStr (s : string)
| QArr (l : list qval)
| QObj (o : list (string * qval)).

Record request : Type := mkRequest {
  rq_method : method;
  rq_path : list string;
      (** the path after its first [/], split at each [/], still
          percent-encoded ([/api/info/] is [["api"; "info"; ""]]) *)
  rq_query : list (string * qval);   (** [req.query]: each key once *)
  rq_body : obj;                     (** [req.body] *)
  rq_now : Z;                        (** the time [new Date()] reads *)
  rq_connect : connect_outcome;
  rq_limited : bool
      (** the rate limiter has already counted 200 requests of this client
          in the current 15-minute window *)
}.

Record pagination : Type := mkPagination {
  currentPage : jsnum;
  totalPages : jsnum;
  totalDocuments : Z;
  documentsPerPage : jsnum;
  hasNextPage : bool;
  hasPrevPage : bool
}.

Inductive payload : Type :=
| PError (msg : string)
| PBrowse (documents : list obj) (fields : list string) (p : pagination)
| PDoc (d : obj)
| PCount (key : string) (n : Z)                  (** modifiedCount / deletedCount *)
| PCollections (l : list (string * Z))
| PConnected (dbName : string)
| PInfo (dbName : string)
| PDone.

Record response : Type := mkResponse { status : Z; body : payload }.

Definition err (code : Z) (msg : string) : response := mkResponse code (PError msg).

Definition msg_not_connected : string := "Not connected to any database".
(** What [db.collection(...)] throws when [db] is [null]; the catch block
    answers 500 with [error.message]. *)
Definition msg_null_db : string := "Cannot read properties of null (reading 'collection')".
(** What the driver throws for an operation on a closed client. *)
Definition msg_client_closed : string := "Client must be connected before running operations".
Definition msg_not_found : string := "Document not found".
Definition msg_route_not_found : string := "Route not found".
(** Stands for the message of the error the driver or server raises; the
    catch block answers 500 with it. *)
Definition msg_server_error : string := "server error".
(** The error middleware. *)
Definition msg_error_handler : string := "Something went wrong!".
Definition msg_rate_limited : string := "Too many requests, please try again later.".

(** JavaScript truthiness of an optional (possibly [undefined]) value. *)
Definition truthy (v : option jval) : bool :=
  match v with
  | None | Some JNull => false
  | Some (JBool b) => b
  | Some (JNum n) => negb (Z.eqb n 0)
  | Some (JStr s) => negb (String.eqb s EmptyString)
  | Some _ => true
  end.

(** The 500 answer of a handler that calls [db.collection(...)] while the
    variable [db] holds no usable handle. *)
Definition no_db_error (st : state) : response :=
  err 500 (if db_closed st then msg_client_closed else msg_null_db).

(** ** Identifier predicates *)

(** [{ _id: new ObjectId(id) }] *)
Definition pk_filter (id : string) : obj := [("_id", new_ObjectId id)].

(** The [$or] of the single-document read handler's fallback. *)
Definition get_alt_filter (id : string) : obj :=
  [("$or", JArr [JObj [("sessionId", JStr id)]; JObj [("userId", JStr id)];
                 JObj [("chatId", JStr id)]; JObj [("_id", JStr id)]])].

(** The [$or] of the update and delete handlers. *)
Definition mut_alt_filter (id : string) : obj :=
  [("$or", JArr [JObj [("sessionId", JStr id)]; JObj [("userId", JStr id)];
                 JObj [("chatId", JStr id)]])].

(** The filter [updateOne] and [deleteOne] receive. *)
Definition mutation_filter (id : string) : obj :=
  if ObjectId_isValid id then pk_filter id else mut_alt_filter id.

(** ** [$set] on the server *)

(** A [$set] key the model applies itself: a top-level field name, not
    empty, without a dot, a leading [$] or a NUL.  Other keys (paths,
    positional updates, ...) are left to [server_set]. *)
Definition plain_field (k : string) : bool :=
  negb (String.eqb k EmptyString) && negb (has_char "."%char k)
  && negb (starts_with_dollar k) && negb (has_char nul k).

Definition plain_set (s : obj) : bool := forallb (fun kv => plain_field kv.1) s.

Definition all_digits (k : string) : bool :=
  negb (String.eqb k EmptyString)
  && forallb (fun c => Nat.leb 48 (nat_of_ascii c) && Nat.leb (nat_of_ascii c) 57)
       (list_ascii_of_string k).

(** The order in which the server applies the fields of a [$set]
    ([pathsupport::cmpPathsAndArrayIndexes]): two numeric names by length,
    then digit by digit; any other two byte by byte. *)
Definition field_leb (a b : string) : bool :=
  if all_digits a && all_digits b then
    Nat.ltb (String.length a) (String.length b)
    || (Nat.eqb (String.length a) (String.length b)
        && match String.compare a b with Gt => false | _ => true end)
  else match String.compare a b with Gt => false | _ => true end.

Definition sort_fields (s : obj) : obj :=
  @merge_sort (string * jval) (fun x y => field_leb x.1 y.1 = true)
    (fun x y => bool_eq_dec (field_leb x.1 y.1) true) s.

(** [$set] of plain fields: in the server's field order, an existing field
    keeps its position and takes the new value, a new one is appended. *)
Definition apply_set (s : obj) (d : obj) : obj :=
  fold_left (fun o kv => obj_set kv.1 kv.2 o) (sort_fields s) d.

Definition opt_jval_eqb (x y : option jval) : bool :=
  match x, y with
  | Some a, Some b => jval_eqb a b
  | None, None => true
  | _, _ => false
  end.

Section Handlers.
Context (B : builtins).

Definition findOne (q : obj) (docs : list obj) : option obj :=
  List.find (match_query B q) docs.

(** The document [{$set: s}] makes of [d]; [None]: the update fails. *)
Definition set_fields (s d : obj) : option obj :=
  if plain_set s then Some (apply_set s d) else server_set B s d.

(** [updateOne(q, {$set: s})] once the update has been accepted: the first
    match is updated; the update fails when it would change [_id] or the
    document cannot be stored.  Returns the documents, matchedCount and
    modifiedCount; [None]: the operation fails. *)
Fixpoint updateOne (q : obj) (s : obj) (docs : list obj) : option (list obj * Z * Z) :=
  match docs with
  | [] => Some ([], 0, 0)
  | d :: r =>
      if match_query B q d then
        match set_fields s d with
        | Some d' =>
            if opt_jval_eqb (obj_get "_id" d') (obj_get "_id" d) && doc_ok B d'
            then Some (d' :: r, 1, if jval_eqb (JObj d') (JObj d) then 0 else 1)
            else None
        | None => None
        end
      else match updateOne q s r with
           | Some (r', m, n) => Some (d :: r', m, n)
           | None => None
           end
  end.

Fixpoint deleteOne (q : obj) (docs : list obj) : list obj * Z :=
  match docs with
  | [] => ([], 0)
  | d :: r =>
      if match_query B q d then (r, 1)
      else let '(r', n) := deleteOne q r in (d :: r', n)
  end.

Definition deleteMany (q : obj) (docs : list obj) : list obj * Z :=
  (List.filter (fun d => negb (match_query B q d)) docs,
   Z.of_nat (length (List.filter (match_query B q) docs))).

(** GET /api/collections/:collectionName/:id *)
Definition get_one (st : state) (c id : string) : state * response :=
  match db st with
  | None => (st, no_db_error st)
  | Some dbn =>
      let docs := coll_docs st dbn c in
      let first := if ObjectId_isValid id then findOne (pk_filter id) docs else None in
      let document := match first with
                      | Some d => Some d
                      | None => findOne (get_alt_filter id) docs
                      end in
      match document with
      | None => (st, err 404 msg_not_found)
      | Some d => (st, mkResponse 200 (PDoc d))
      end
  end.

(** [{ ...updates, updatedAt: new Date() }] after [delete updates._id] *)
Definition update_set (updates : obj) (now : Z) : obj :=
  obj_set "updatedAt" (JDate now) (obj_spread [] (obj_delete "_id" updates)).

(** PUT /api/collections/:collectionName/:id *)
Definition update_doc (st : state) (c id : string) (updates : obj) (now : Z)
  : state * response :=
  match db st with
  | None => (st, no_db_error st)
  | Some dbn =>
      let s := update_set updates now in
      if negb (update_ok B s) then (st, err 500 msg_server_error) else
      match updateOne (mutation_filter id) s (coll_docs st dbn c) with
      | None => (st, err 500 msg_server_error)
      | Some (docs', matched, modified) =>
          if Z.eqb matched 0 then (st, err 404 msg_not_found)
          else (set_coll st dbn c docs', mkResponse 200 (PCount "modifiedCount" modified))
      end
  end.

(** DELETE /api/collections/:collectionName/:id *)
Definition delete_doc (st : state) (c id : string) : state * response :=
  match db st with
  | None => (st, no_db_error st)
  | Some dbn =>
      let '(docs', deleted) := deleteOne (mutation_filter id) (coll_docs st dbn c) in
      if Z.eqb deleted 0 then (st, err 404 msg_not_found)
      else (set_coll st dbn c docs', mkResponse 200 (PCount "deletedCount" deleted))
  end.

(** POST /api/collections/:collectionName/bulk-delete *)
Definition to_object_id (v : jval) : jval :=
  match v with
  | JStr s => if ObjectId_isValid s then new_ObjectId s else v
  | _ => match nonstring_oid B v with Some h => JOid h | None => v end
  end.

Definition is_object_id (v : jval) : bool := match v with JOid _ => true | _ => false end.
Definition is_string (v : jval) : bool := match v with JStr _ => true | _ => false end.

Definition bulk_filter (ids : list jval) : obj :=
  let objectIds := map to_object_id ids in
  let oids := List.filter is_object_id objectIds in
  let strs := List.filter is_string objectIds in
  [("$or", JArr [JObj [("_id", JObj [("$in", JArr oids)])];
                 JObj [("sessionId", JObj [("$in", JArr strs)])];
                 JObj [("userId", JObj [("$in", JArr strs)])];
                 JObj [("chatId", JObj [("$in", JArr strs)])]])].

Definition bulk_delete (st : state) (c : string) (b : obj) : state * response :=
  match obj_get "ids" b with
  | Some (JArr ((_ :: _) as ids)) =>
      match db st with
      | None => (st, no_db_error st)
      | Some dbn =>
          let '(docs', deleted) := deleteMany (bulk_filter ids) (coll_docs st dbn c) in
          (set_coll st dbn c docs', mkResponse 200 (PCount "deletedCount" deleted))
      end
  | _ => (st, err 400 "No IDs provided")
  end.

(** *** GET /api/collections/:collectionName *)

(** ToString of a query value: an array joins its elements with commas. *)
Fixpoint qstring (v : qval) : string :=
  match v with
  | QStr s => s
  | QArr l =>
      (fix join (l : list qval) : string :=
         match l with
         | [] => EmptyString
         | [x] => qstring x
         | x :: r => String.append (qstring x) (String ","%char (join r))
         end) l
  | QObj _ => "[object Object]"
  end.

Definition qtruthy (v : qval) : bool :=
  match v with QStr s => negb (String.eqb s EmptyString) | _ => true end.

Definition qparam (q : list (string * qval)) (k : string) : option qval :=
  assoc_get k q.

(** [parseInt(x)] and ToNumber(x) of a query parameter with a numeric default. *)
Definition param_parseInt (p : option qval) (dflt : Z) : jsnum :=
  match p with Some v => parseInt (qstring v) | None => NNum (inject_Z dflt) end.

Definition param_number (p : option qval) (dflt : Z) : jsnum :=
  match p with Some v => to_number B (qstring v) | None => NNum (inject_Z dflt) end.

(** The pattern of [new RegExp(search, 'i')] when [if (search)] holds, [""]
    otherwise.  A truthy value whose string is empty (the array [[""]])
    gives the pattern of the empty regular expression, [(?:)]. *)
Definition search_term (p : option qval) : string :=
  match p with
  | Some v =>
      if qtruthy v then
        let s := qstring v in if String.eqb s EmptyString then "(?:)" else s
      else EmptyString
  | None => EmptyString
  end.

(** [filter] as the string the code compares with ['{}'] and parses. *)
Definition filter_term (p : option qval) : string :=
  match p with Some v => qstring v | None => "{}" end.

(** [sortBy] as the key of the sort document. *)
Definition sort_term (p : option qval) : string :=
  match p with Some v => qstring v | None => "_id" end.

(** [sortOrder === 'desc'], [sortOrder] defaulting to ['desc']. *)
Definition desc_term (p : option qval) : bool :=
  match p with
  | Some (QStr s) => String.eqb s "desc"
  | Some _ => false
  | None => true
  end.

Definition search_fields : list string :=
  ["_id"; "userId"; "user_id"; "username"; "user_name"; "chatId"; "chat_id";
   "sessionId"; "session_id"; "phoneNumber"; "phone"; "email"].

(** [{ $or: [ { _id: searchRegex }, ... ] }] with
    [searchRegex = new RegExp(search, 'i')], as the driver sends it. *)
Definition search_query (search : string) : obj :=
  [("$or", JArr (map (fun f => JObj [(f, JRegex (regexp_source search) "i")]) search_fields))].

(** The query of the browse handler; [None] when [new RegExp] throws. *)
Definition build_query (search filter : string) : option obj :=
  let base := if String.eqb search EmptyString then Some []
              else if RegExp_ok B search then Some (search_query search) else None in
  match base with
  | None => None
  | Some query =>
      Some (if String.eqb filter "{}" then query
            else match JSON_parse B filter with
                 | Some customFilter => obj_spread (obj_spread [] query) (spread_source customFilter)
                 | None => query   (** Invalid JSON, ignore *)
                 end)
  end.

(** [sort({[sortBy]: desc ? -1 : 1})]: may [a] come before [b]. *)
Definition sort_le (f : string) (desc : bool) (a b : obj) : bool :=
  match value_cmp B (sort_key_of B f desc a) (sort_key_of B f desc b) with
  | Lt => negb desc
  | Eq => true
  | Gt => desc
  end.

(** The server's sort: [$natural] is the order of the collection, reversed
    by [-1]; any other key must be a field path the server accepts.  Ties
    keep their natural order here, one of the orders the server may give. *)
Definition sort_docs (f : string) (desc : bool) (docs : list obj) : option (list obj) :=
  if String.eqb f "$natural" then Some (if desc then rev docs else docs)
  else if sort_path_ok B f then
    Some (@merge_sort obj (fun a b => sort_le f desc a b = true)
            (fun a b => bool_eq_dec (sort_le f desc a b) true) docs)
  else None.

Fixpoint skipZ {A} (n : Z) (l : list A) : list A :=
  match l with
  | [] => []
  | _ :: r => if Z.leb n 0 then l else skipZ (n - 1) r
  end.

Fixpoint firstZ {A} (n : Z) (l : list A) : list A :=
  match l with
  | [] => []
  | x :: r => if Z.leb n 0 then [] else x :: firstZ (n - 1) r
  end.

(** [find(query).sort(...).skip(skip).limit(limit).toArray()].  The driver
    sends a negative limit [-n] as [limit: n, singleBatch: true]: only the
    first batch comes back.  The server reads both numbers as 64-bit
    integers, rejects a negative skip, and takes a limit of 0 as no limit. *)
Definition find_docs (sortBy : string) (desc : bool) (skip limit : jsnum)
  (matching : list obj) : option (list obj) :=
  let single := js_lt limit (NNum 0) in
  let s := safeNumberLong skip in
  let l := safeNumberLong (if single then js_neg limit else limit) in
  if Z.ltb s 0 then None
  else match sort_docs sortBy desc matching with
       | None => None
       | Some sorted =>
           if negb (sort_fits B sortBy s l matching) then None
           else
             let rest := skipZ s sorted in
             let page := if Z.eqb l 0 then rest else firstZ l rest in
             Some (if single then firstn (first_batch B page) page else page)
       end.

(** [fields]: the keys of the returned documents, in first-seen order. *)
Definition add_keys (acc : list string) (d : obj) : list string :=
  fold_left (fun a kv => if existsb (String.eqb kv.1) a then a else app a [kv.1]) d acc.

Definition fields_of (docs : list obj) : list string := fold_left add_keys docs [].

Definition browse (st : state) (c : string) (q : list (string * qval))
  : state * response :=
  match isConnected st, db st with
  | true, Some dbn =>
      let page := qparam q "page" in
      let limit := qparam q "limit" in
      let skip := js_mul (js_sub1 (param_parseInt page 1)) (param_parseInt limit 50) in
      match build_query (search_term (qparam q "search")) (filter_term (qparam q "filter")) with
      | None => (st, err 500 msg_server_error)
      | Some query =>
          if negb (query_ok B query) then (st, err 500 msg_server_error) else
          let matching := List.filter (match_query B query) (coll_docs st dbn c) in
          let total := Z.of_nat (length matching) in
          match find_docs (sort_term (qparam q "sortBy")) (desc_term (qparam q "sortOrder"))
                  skip (param_parseInt limit 50) matching with
          | None => (st, err 500 msg_server_error)
          | Some documents =>
              (st, mkResponse 200
                     (PBrowse documents (fields_of documents)
                        (mkPagination
                           (param_parseInt page 1)
                           (Math_ceil (js_div_count total (param_number limit 50)))
                           total
                           (param_parseInt limit 50)
                           (js_lt (js_add skip (param_parseInt limit 50)) (NNum (inject_Z total)))
                           (js_lt (NNum 1) (param_number page 1)))))
          end
      end
  | true, None => (st, if db_closed st then err 500 msg_server_error else err 503 msg_not_connected)
  | false, _ => (st, err 503 msg_not_connected)
  end.

(** GET /api/collections *)
Definition list_collections (st : state) : state * response :=
  match isConnected st, db st with
  | true, Some dbn =>
      (st, mkResponse 200
             (PCollections (map (fun cl => (cl.1, Z.of_nat (length cl.2))) (server st dbn))))
  | true, None => (st, if db_closed st then err 500 msg_server_error else err 503 msg_not_connected)
  | false, _ => (st, err 503 msg_not_connected)
  end.

(** GET /api/info *)
Definition info (st : state) : state * response :=
  match isConnected st, db st with
  | true, Some dbn => (st, mkResponse 200 (PInfo dbn))
  | true, None => (st, if db_closed st then err 500 msg_server_error else err 503 msg_not_connected)
  | false, _ => (st, err 503 msg_not_connected)
  end.

(** [pathname.replace('/', '')]: drops the first slash. *)
Fixpoint drop_first_slash (l : list ascii) : list ascii :=
  match l with
  | [] => []
  | c :: r => if Ascii.eqb c "/"%char then r else c :: drop_first_slash r
  end.

(** The driver's [validateDatabaseName], run by [mongoClient.db(name)]. *)
Definition db_name_ok (n : string) : bool :=
  String.eqb n "$external"
  || (negb (String.eqb n EmptyString)
      && forallb (fun ch => negb (existsb (Ascii.eqb ch) [" "; "."; "$"; "/"; bslash]%char))
           (list_ascii_of_string n)).

(** POST /api/connect.  Closing the prior client succeeds; a [Db] handle of
    it that the variable [db] still holds becomes unusable. *)
Definition connect (st : state) (b : obj) (outcome : connect_outcome) : state * response :=
  let url := obj_get "url" b in
  if negb (truthy url) then (st, err 400 "MongoDB URL is required")
  else
    (* if (mongoClient) await mongoClient.close() *)
    let db0 := if mongoClient st then None else db st in
    let closed0 := if mongoClient st
                   then db_closed st || match db st with Some _ => true | None => false end
                   else db_closed st in
    let failed (mc : bool) :=
      (mkState mc db0 closed0 false (server st), err 500 "Connection failed") in
    match url with
    | Some (JStr u) =>
        (* mongoClient = new MongoClient(url) *)
        if negb (MongoClient_ok B u) then failed (mongoClient st)
        else
        (* await mongoClient.connect() *)
        match outcome with
        | ConnectRefused => failed true
        | _ =>
            let from_url :=
              match URL_pathname B u with
              | Some p =>
                  let n := string_of_list_ascii (drop_first_slash (list_ascii_of_string p)) in
                  Some (if String.eqb n EmptyString then "test" else n)
              | None => None
              end in
            let database := obj_get "database" b in
            let dbName :=
              if truthy database then
                match database with
                | Some (JStr s) => Some s
                | _ => None   (** [mongoClient.db] rejects a non-string name *)
                end
              else from_url in
            match dbName with
            | Some n =>
                if db_name_ok n then
                  match outcome with
                  | ConnectOk =>
                      (mkState true (Some n) false true (server st), mkResponse 200 (PConnected n))
                  | _ => (mkState true (Some n) false false (server st), err 500 "Connection failed")
                  end
                else failed true
            | None => failed true
            end
        end
    | _ => failed (mongoClient st)   (** [new MongoClient] throws on a non-string URL *)
    end.

(** POST /api/disconnect *)
Definition disconnect (st : state) : state * response :=
  if mongoClient st then (mkState false None false false (server st), mkResponse 200 PDone)
  else (st, mkResponse 200 PDone).

(** ** Routing *)

Inductive route : Type :=
| RConnect | RInfo | RList | RBrowse (c : string) | RGetOne (c id : string)
| RUpdate (c id : string) | RDelete (c id : string) | RBulkDelete (c : string)
| RDisconnect | RBadParam | RNotFound.

Definition lower_string (s : string) : string :=
  string_of_list_ascii (map lower_ascii (list_ascii_of_string s)).

(** Express compares the literal parts of a route ignoring ASCII case. *)
Definition ieq (s lit : string) : bool := String.eqb (lower_string s) lit.

(** Non-strict routing: one trailing slash is allowed. *)
Definition trim_slash (path : list string) : list string :=
  match rev path with
  | EmptyString :: r => rev r
  | _ => path
  end.

(** The route the router dispatches to, from the raw path.  A parameter is
    a non-empty segment, passed through [decodeURIComponent]; when that
    throws for a route whose path matches (whatever its method), the error
    goes to the error middleware. *)
Definition route_of (m : method) (path : list string) : route :=
  match trim_slash path with
  | [a; x] =>
      if negb (ieq a "api") then RNotFound
      else match m with
           | POST => if ieq x "connect" then RConnect
                     else if ieq x "disconnect" then RDisconnect else RNotFound
           | GET => if ieq x "info" then RInfo
                    else if ieq x "collections" then RList else RNotFound
           | _ => RNotFound
           end
  | [a; x; c] =>
      if ieq a "api" && ieq x "collections" && negb (String.eqb c EmptyString) then
        match decodeURIComponent B c with
        | None => RBadParam
        | Some c' => match m with GET => RBrowse c' | _ => RNotFound end
        end
      else RNotFound
  | [a; x; c; id] =>
      if ieq a "api" && ieq x "collections" && negb (String.eqb c EmptyString)
         && negb (String.eqb id EmptyString) then
        match decodeURIComponent B c, decodeURIComponent B id with
        | Some c', Some id' =>
            match m with
            | GET => RGetOne c' id'
            | PUT => RUpdate c' id'
            | DELETE => RDelete c' id'
            | POST => if ieq id "bulk-delete" then RBulkDelete c' else RNotFound
            end
        | _, _ => RBadParam
        end
      else RNotFound
  | _ => RNotFound
  end.

(** The rate limiter is mounted on [/api/]. *)
Definition under_api (path : list string) : bool :=
  match path with a :: _ => ieq a "api" | [] => false end.

(** One request against the server. *)
Definition serve (st : state) (rq : request) : state * response :=
  if rq_limited rq && under_api (rq_path rq) then (st, err 429 msg_rate_limited)
  else
  match route_of (rq_method rq) (rq_path rq) with
  | RConnect => connect st (rq_body rq) (rq_connect rq)
  | RInfo => info st
  | RList => list_collections st
  | RBrowse c => browse st c (rq_query rq)
  | RGetOne c id => get_one st c id
  | RUpdate c id => update_doc st c id (rq_body rq) (rq_now rq)
  | RDelete c id => delete_doc st c id
  | RBulkDelete c => bulk_delete st c (rq_body rq)
  | RDisconnect => disconnect st
  | RBadParam => (st, err 500 msg_error_handler)
  | RNotFound => (st, err 404 msg_route_not_found)
  end.

End Handlers.

(** A sequence of requests. *)
Fixpoint run (B : builtins) (st : state) (rqs : list request) : state :=
  match rqs with
  | [] => st
  | rq :: r => run B (fst (serve B st rq)) r
  end.

(** ** A concrete instance of the built-ins, for concrete runs *)
Module Demo.

Fixpoint skip_ws (l : list ascii) : list ascii :=
  match l with
  | c :: r => if js_space c then skip_ws r else l
  | [] => []
  end.

Definition dq : ascii := ascii_of_nat 34.

Fixpoint lex_string (l : list ascii) (acc : list ascii) : option (string * list ascii) :=
  match l with
  | [] => None
  | c :: r =>
      if Ascii.eqb c dq then Some (string_of_list_ascii (rev acc), r)
      else if Ascii.eqb c bslash then
        match r with
        | e :: r' => lex_string r' (e :: acc)
        | [] => None
        end
      else lex_string r (c :: acc)
  end.

Fixpoint lex_digits (l : list ascii) (acc : Z) : Z * list ascii :=
  match l with
  | c :: r =>
      match digit_value 10 c with
      | Some v => lex_digits r (10 * acc + Z.of_nat v)
      | None => (acc, l)
      end
  | [] => (acc, l)
  end.

Definition starts_with (w : string) (l : list ascii) : option (list ascii) :=
  let w' := list_ascii_of_string w in
  if String.eqb (string_of_list_ascii (firstn (length w') l)) w then Some (skipn (length w') l) else None.

(** A JSON reader for integers, strings (a backslash escapes the next character),
    literals, arrays and objects (a repeated key keeps its first position
    and its last value, as [JSON.parse] does). *)
Fixpoint parse_value (fuel : nat) (l : list ascii) : option (jval * list ascii) :=
  match fuel with
  | O => None
  | S f =>
      match skip_ws l with
      | "{"%char :: r =>
          match skip_ws r with
          | "}"%char :: r' => Some (JObj [], r')
          | _ =>
              (fix members (g : nat) (acc : obj) (r : list ascii) : option (jval * list ascii) :=
                 match g with
                 | O => None
                 | S g' =>
                     match skip_ws r with
                     | c0 :: r1 =>
                         if negb (Ascii.eqb c0 dq) then None else
                         match lex_string r1 [] with
                         | Some (k, r2) =>
                             match skip_ws r2 with
                             | ":"%char :: r3 =>
                                 match parse_value f r3 with
                                 | Some (v, r4) =>
                                     match skip_ws r4 with
                                     | ","%char :: r5 => members g' (obj_set k v acc) r5
                                     | "}"%char :: r5 => Some (JObj (obj_set k v acc), r5)
                                     | _ => None
                                     end
                                 | None => None
                                 end
                             | _ => None
                             end
                         | None => None
                         end
                     | _ => None
                     end
                 end) f [] r
          end
      | "["%char :: r =>
          match skip_ws r with
          | "]"%char :: r' => Some (JArr [], r')
          | _ =>
              (fix elems (g : nat) (acc : list jval) (r : list ascii) : option (jval * list ascii) :=
                 match g with
                 | O => None
                 | S g' =>
                     match parse_value f r with
                     | Some (v, r1) =>
                         match skip_ws r1 with
                         | ","%char :: r2 => elems g' (app acc [v]) r2
                         | "]"%char :: r2 => Some (JArr (app acc [v]), r2)
                         | _ => None
                         end
                     | None => None
                     end
                 end) f [] r
          end
      | "-"%char :: c :: r =>
          match digit_value 10 c with
          | Some _ => let '(n, r') := lex_digits (c :: r) 0 in Some (JNum (- n), r')
          | None => None
          end
      | (c :: r) as l' =>
          if Ascii.eqb c dq then
            match lex_string r [] with
            | Some (s, r') => Some (JStr s, r')
            | None => None
            end
          else
          match digit_value 10 c with
          | Some _ => let '(n, r') := lex_digits l' 0 in Some (JNum n, r')
          | None =>
              match starts_with "true" l' with
              | Some r' => Some (JBool true, r')
              | None =>
                  match starts_with "false" l' with
                  | Some r' => Some (JBool false, r')
                  | None =>
                      match starts_with "null" l' with
                      | Some r' => Some (JNull, r')
                      | None => None
                      end
                  end
              end
          end
      | [] => None
      end
  end.

Definition json_parse (s : string) : option jval :=
  let l := list_ascii_of_string s in
  match parse_value (S (length l)) l with
  | Some (v, r) => match skip_ws r with [] => Some v | _ => None end
  | None => None
  end.

(** Regular expressions: literals, [.] (any character but a newline),
    postfix [*] and backslash escapes. *)
Inductive atom : Type := ALit (c : ascii) | ADot.
Inductive piece : Type := POne (a : atom) | PStar (a : atom).

Fixpoint tokens_aux (fuel : nat) (l : list ascii) : list piece :=
  match fuel with
  | O => []
  | S f =>
      match l with
      | [] => []
      | c :: r =>
          let '(a, r') := if Ascii.eqb c "."%char then (ADot, r)
                          else if Ascii.eqb c bslash then
                            match r with e :: r'' => (ALit e, r'') | [] => (ALit c, r) end
                          else (ALit c, r) in
          match r' with
          | s :: r'' =>
              if Ascii.eqb s "*"%char then PStar a :: tokens_aux f r''
              else POne a :: tokens_aux f r'
          | [] => [POne a]
          end
      end
  end.

Definition tokens (l : list ascii) : list piece := tokens_aux (length l) l.

Definition atom_ok (icase : bool) (a : atom) (c : ascii) : bool :=
  match a with
  | ADot => negb (Nat.eqb (nat_of_ascii c) 10)
  | ALit x => if icase then Ascii.eqb (lower_ascii x) (lower_ascii c) else Ascii.eqb x c
  end.

Fixpoint match_here (icase : bool) (p : list piece) (s : list ascii) : bool :=
  match p with
  | [] => true
  | POne a :: p' =>
      match s with c :: s' => atom_ok icase a c && match_here icase p' s' | [] => false end
  | PStar a :: p' =>
      (fix star (s : list ascii) : bool :=
         match_here icase p' s
         || match s with c :: s' => atom_ok icase a c && star s' | [] => false end) s
  end.

Fixpoint search_from (icase : bool) (p : list piece) (s : list ascii) : bool :=
  match_here icase p s || match s with [] => false | _ :: s' => search_from icase p s' end.

Definition regex (pat flags : string) (subject : string) : bool :=
  search_from (existsb (Ascii.eqb "i"%char) (list_ascii_of_string flags))
    (tokens (list_ascii_of_string pat)) (list_ascii_of_string subject).

(** BSON order of types, then values within a type. *)
Definition rank (v : jval) : Z :=
  match v with
  | JNull => 1 | JNum _ => 2 | JStr _ => 3 | JObj _ => 4 | JArr _ => 5
  | JOid _ => 7 | JBool _ => 8 | JDate _ => 9 | JRegex _ _ => 11
  end.

Definition cmp (a b : jval) : comparison :=
  match a, b with
  | JNum x, JNum y => Z.compare x y
  | JStr x, JStr y => String.compare x y
  | JOid x, JOid y => String.compare x y
  | JDate x, JDate y => Z.compare x y
  | JBool x, JBool y => Bool.compare x y
  | _, _ => Z.compare (rank a) (rank b)
  end.

(** ToNumber for optionally signed decimal digit strings; anything else NaN. *)
Definition decimal_number (s : string) : jsnum :=
  match list_ascii_of_string s with
  | [] => NNum 0
  | "-"%char :: (_ :: _) as r =>
      if forallb (fun c => match digit_value 10 c with Some _ => true | None => false end) r
      then NNum (inject_Z (- fst (lex_digits r 0))) else NNaN
  | l =>
      if forallb (fun c => match digit_value 10 c with Some _ => true | None => false end) l
      then NNum (inject_Z (fst (lex_digits l 0))) else NNaN
  end.

(** [decodeURIComponent] for [%XX] escapes of single bytes; a [%] not
    followed by two hex digits throws. *)
Fixpoint percent_decode (l : list ascii) : option (list ascii) :=
  match l with
  | [] => Some []
  | c :: r =>
      if Ascii.eqb c "%"%char then
        match r with
        | h :: l' :: r' =>
            match digit_value 16 h, digit_value 16 l' with
            | Some x, Some y =>
                match percent_decode r' with
                | Some t => Some (ascii_of_nat (16 * x + y) :: t)
                | None => None
                end
            | _, _ => None
            end
        | _ => None
        end
      else match percent_decode r with Some t => Some (c :: t) | None => None end
  end.

Definition decode (s : string) : option string :=
  match percent_decode (list_ascii_of_string s) with
  | Some l => Some (string_of_list_ascii l)
  | None => None
  end.

Definition has_prefix (p s : string) : bool :=
  String.eqb (substring 0 (String.length p) s) p.

Definition builtins_demo : builtins := {|
  JSON_parse := json_parse;
  RegExp_ok := fun _ => true;
  regex_search := regex;
  top_operator := fun _ _ _ => false;
  field_operator := fun _ _ _ => false;
  path_match := fun _ _ _ => false;
  query_ok := fun _ => true;
  value_cmp := cmp;
  sort_path_ok := fun f => negb (String.eqb f EmptyString) && negb (starts_with_dollar f)
                           && negb (has_char "."%char f);
  sort_key_of := fun f _ d => match obj_get f d with Some v => v | None => JNull end;
  sort_fits := fun _ _ _ _ => true;
  first_batch := fun l => Nat.min 101 (length l);
  to_number := decimal_number;
  URL_pathname := fun _ => Some "/admin";
  MongoClient_ok := fun u => has_prefix "mongodb://" u || has_prefix "mongodb+srv://" u;
  decodeURIComponent := decode;
  nonstring_oid := fun _ => None;
  update_ok := plain_set;
  server_set := fun _ _ => None;
  doc_ok := fun _ => true
|}.

(** Sample inputs. *)
Definition quoted (s : string) : string := String dq (String.append s (String dq EmptyString)).

(** The filter [{"a":1}]. *)
Definition filter_a1 : string := String.append "{" (String.append (quoted "a") ":1}").

(** The filter [{"$or":[{"a":1}]}]. *)
Definition filter_or : string :=
  String.append "{" (String.append (quoted "$or")
    (String.append ":[{" (String.append (quoted "a") ":1}]}"))).

Definition oid1 : string := "507f1f77bcf86cd799439011".
Definition oid2 : string := "aaaaaaaaaaaaaaaaaaaaaaaa".

(** A server holding one database [admin], with the given collections. *)
Definition server_with (cols : list (string * list obj)) : string -> database :=
  fun dbn => if String.eqb dbn "admin" then cols else [].

(** Connected to [admin]. *)
Definition connected (cols : list (string * list obj)) : state :=
  mkState true (Some "admin") false true (server_with cols).

(** Sessions for a bulk delete: one matched by primary key, one by
    [sessionId], one left alone, and one whose [sessionId] is the text of a
    valid ObjectId. *)
Definition bulk_docs : list obj :=
  [ [("_id", JOid oid1); ("name", JStr "a")];
    [("_id", JOid oid2); ("sessionId", JStr "s-1")];
    [("_id", JOid "bbbbbbbbbbbbbbbbbbbbbbbb"); ("userId", JStr "u-9")];
    [("_id", JOid "cccccccccccccccccccccccc"); ("sessionId", JStr oid1)] ].

End Demo.

(** * Readings of the specification

    Second definitions that follow the specification's words, compared
    below with the ones translated from the code. *)

(** Bulk delete as the specification states it: the union of the documents
    whose primary key is one of the validly encoded ids and of those whose
    [sessionId], [userId] or [chatId] is one of the other strings. *)
Definition spec_bulk_match (ids : list string) (d : obj) : bool :=
  existsb (fun s => ObjectId_isValid s && match_eq (obj_get "_id" d) (new_ObjectId s)) ids
  || existsb (fun s => negb (ObjectId_isValid s)
                       && (match_eq (obj_get "sessionId" d) (JStr s)
                           || match_eq (obj_get "userId" d) (JStr s)
                           || match_eq (obj_get "chatId" d) (JStr s))) ids.

(** The single-document predicate as the specification states it for all
    three handlers: for a valid id the primary key or one of the alternate
    fields, otherwise the alternate fields alone. *)
Definition spec_single_match (id : string) (d : obj) : bool :=
  (ObjectId_isValid id && match_eq (obj_get "_id" d) (new_ObjectId id))
  || match_eq (obj_get "sessionId" d) (JStr id)
  || match_eq (obj_get "userId" d) (JStr id)
  || match_eq (obj_get "chatId" d) (JStr id).


(** Reachable states: without a client there is no [db] handle, open or
    closed, since the connect handler assigns [mongoClient] before [db] and
    only disconnect clears them, together. *)
Definition slot_ok (st : state) : Prop :=
  mongoClient st = false -> db st = None /\ db_closed st = false.

(** The handlers other than connect and disconnect leave the slot alone. *)
Definition same_slot (st st' : state) : Prop :=
  mongoClient st' = mongoClient st /\ db st' = db st /\ db_closed st' = db_closed st.


(** * Properties *)

(** ** JavaScript objects *)

Lemma obj_get_set k k' v o :
  obj_get k (obj_set k' v o) = if String.eqb k k' then Some v else obj_get k o.
Proof.
  induction o as [|[k0 v0] o IH]; simpl.
  - destruct (String.eqb k k'); reflexivity.
  - destruct (String.eqb k' k0) eqn:E1.
    + apply String.eqb_eq in E1; subst k0. simpl.
      destruct (String.eqb k k'); reflexivity.
    + simpl. destruct (String.eqb k k0) eqn:E2; [|exact IH].
      apply String.eqb_eq in E2; subst k0.
      destruct (String.eqb k k') eqn:E3; [|reflexivity].
      apply String.eqb_eq in E3; subst k'. rewrite String.eqb_refl in E1. discriminate.
Qed.

Lemma obj_get_delete k k' o :
  obj_get k (obj_delete k' o) = if String.eqb k k' then None else obj_get k o.
Proof.
  unfold obj_delete. induction o as [|[k0 v0] o IH]; simpl.
  - destruct (String.eqb k k'); reflexivity.
  - destruct (String.eqb k' k0) eqn:E1; simpl.
    + apply String.eqb_eq in E1; subst k0. rewrite IH.
      destruct (String.eqb k k'); reflexivity.
    + rewrite IH. destruct (String.eqb k k0) eqn:E2; [|reflexivity].
      apply String.eqb_eq in E2; subst k0.
      destruct (String.eqb k k') eqn:E3; [|reflexivity].
      apply String.eqb_eq in E3; subst k'. rewrite String.eqb_refl in E1. discriminate.
Qed.

(** A key that [src] does not have keeps its value through a spread. *)
Lemma obj_get_spread_other k acc src :
  Forall (fun kv => kv.1 <> k) src -> obj_get k (obj_spread acc src) = obj_get k acc.
Proof.
  unfold obj_spread. revert acc.
  induction src as [|[k0 v0] src IH]; intros acc Hf; simpl; [reflexivity|].
  inversion Hf as [|? ? Hk Hr]; subst. rewrite IH by exact Hr.
  rewrite obj_get_set. simpl in Hk.
  destruct (String.eqb k k0) eqn:E; [|reflexivity].
  apply String.eqb_eq in E. congruence.
Qed.

(** A key present after a spread was in the source or in the target. *)
Lemma obj_get_spread_in k acc src :
  obj_get k (obj_spread acc src) <> None ->
  In k (map fst src) \/ obj_get k acc <> None.
Proof.
  unfold obj_spread. revert acc.
  induction src as [|[k0 v0] src IH]; intros acc H; simpl in *; [right; exact H|].
  destruct (IH _ H) as [Hin|Hacc]; [left; right; exact Hin|].
  rewrite obj_get_set in Hacc. destruct (String.eqb k k0) eqn:E.
  - left; left. symmetry. apply String.eqb_eq. exact E.
  - right. exact Hacc.
Qed.

Lemma delete_keys_ne k o : Forall (fun kv => kv.1 <> k) (obj_delete k o).
Proof.
  unfold obj_delete. apply List.Forall_forall. intros [k0 v0] Hin.
  apply filter_In in Hin as [_ Hk]. simpl in *.
  intros ->. rewrite String.eqb_refl in Hk. discriminate.
Qed.

Lemma Forall2_diag {A} (R : A -> A -> Prop) (l : list A) :
  (forall x, R x x) -> Forall2 R l l.
Proof. intros HR. induction l; constructor; auto. Qed.

(** [jval_eqb] is equality. *)
Fixpoint jval_eqb_eq (x y : jval) {struct x} : jval_eqb x y = true -> x = y.
Proof.
  destruct x as [|b|n|s|l|o|h|ms|p f], y as [|b'|n'|s'|l'|o'|h'|ms'|p' f'];
    simpl; intros H; try discriminate.
  - reflexivity.
  - apply Bool.eqb_prop in H. subst. reflexivity.
  - apply Z.eqb_eq in H. subst. reflexivity.
  - apply String.eqb_eq in H. subst. reflexivity.
  - f_equal. revert l' H. revert l. fix go 1. intros [|a l] [|a' l'] H; try discriminate.
    + reflexivity.
    + apply andb_prop in H as [H1 H2]. f_equal; [exact (jval_eqb_eq a a' H1)|exact (go l l' H2)].
  - f_equal. revert o' H. revert o. fix go 1. intros [|[k a] o] [|[k' a'] o'] H; try discriminate.
    + reflexivity.
    + apply andb_prop in H as [H H2]. apply andb_prop in H as [H0 H1].
      apply String.eqb_eq in H0. subst k'.
      f_equal; [f_equal; exact (jval_eqb_eq a a' H1)|exact (go o o' H2)].
  - apply String.eqb_eq in H. subst. reflexivity.
  - apply Z.eqb_eq in H. subst. reflexivity.
  - apply andb_prop in H as [H1 H2]. apply String.eqb_eq in H1, H2. subst. reflexivity.
Qed.

Lemma opt_jval_eqb_eq x y : opt_jval_eqb x y = true -> x = y.
Proof.
  destruct x, y; simpl; intros H; try discriminate; [|reflexivity].
  f_equal. apply jval_eqb_eq, H.
Qed.

(** ** The store *)

Lemma assoc_get_put {A} k c (v : A) m :
  assoc_get k (assoc_put c v m) =
  if String.eqb k c then (match assoc_get c m with Some _ => Some v | None => None end)
  else assoc_get k m.
Proof.
  induction m as [|[k0 v0] m IH]; simpl.
  - destruct (String.eqb k c); reflexivity.
  - destruct (String.eqb c k0) eqn:E1.
    + apply String.eqb_eq in E1; subst k0. simpl.
      destruct (String.eqb k c); reflexivity.
    + simpl. rewrite IH. destruct (String.eqb k k0) eqn:E2.
      * apply String.eqb_eq in E2; subst k0.
        destruct (String.eqb k c) eqn:E3; [|reflexivity].
        apply String.eqb_eq in E3; subst c. rewrite String.eqb_refl in E1. discriminate.
      * reflexivity.
Qed.

Lemma coll_docs_set_coll st dbn c l dbn' c' :
  coll_docs (set_coll st dbn c l) dbn' c' =
  if String.eqb dbn' dbn && String.eqb c' c then
    (match assoc_get c (server st dbn) with Some _ => l | None => [] end)
  else coll_docs st dbn' c'.
Proof.
  unfold coll_docs, set_coll. simpl.
  destruct (String.eqb dbn' dbn) eqn:E1; simpl; [|reflexivity].
  apply String.eqb_eq in E1; subst dbn'.
  rewrite assoc_get_put. destruct (String.eqb c' c) eqn:E2; [|reflexivity].
  apply String.eqb_eq in E2; subst c'. destruct (assoc_get c (server st dbn)); reflexivity.
Qed.

Lemma coll_docs_server st st' dbn c :
  server st' = server st -> coll_docs st' dbn c = coll_docs st dbn c.
Proof. intros H. unfold coll_docs. rewrite H. reflexivity. Qed.

(** ** The connection slot *)

Lemma same_slot_set_coll st dbn c l : same_slot st (set_coll st dbn c l).
Proof. repeat split. Qed.

Create HintDb slot.
Local Hint Resolve same_slot_set_coll : slot.
Local Hint Extern 1 (same_slot ?s ?s) => repeat split : slot.

Lemma data_handlers_same_slot B st c id q p now :
  same_slot st (fst (info st)) /\ same_slot st (fst (list_collections st)) /\
  same_slot st (fst (browse B st c q)) /\ same_slot st (fst (get_one B st c id)) /\
  same_slot st (fst (update_doc B st c id p now)) /\ same_slot st (fst (delete_doc B st c id)) /\
  same_slot st (fst (bulk_delete B st c p)).
Proof.
  unfold info, list_collections, browse, get_one, update_doc, delete_doc, bulk_delete.
  repeat split; repeat case_match; simpl; auto with slot.
Qed.

Lemma same_slot_ok st st' : same_slot st st' -> slot_ok st -> slot_ok st'.
Proof. intros (H1 & H2 & H3) H. unfold slot_ok. rewrite H1, H2, H3. exact H. Qed.

Lemma connect_slot_ok B st b o : slot_ok st -> slot_ok (fst (connect B st b o)).
Proof.
  unfold slot_ok, connect. intros H.
  repeat case_match; simpl; try exact H.
  all: intros Hf; first [discriminate Hf | apply H; congruence].
Qed.

Lemma serve_slot_ok B st rq : slot_ok st -> slot_ok (fst (serve B st rq)).
Proof.
  intros H. unfold serve.
  destruct (rq_limited rq && under_api (rq_path rq)); [exact H|].
  pose proof (fun c id => data_handlers_same_slot B st c id (rq_query rq) (rq_body rq) (rq_now rq))
    as Hs.
  destruct (route_of B (rq_method rq) (rq_path rq)) as [| | |c|c id|c id|c id|c| | |];
    simpl; try exact H.
  - apply connect_slot_ok, H.
  - apply (same_slot_ok st), H. apply (Hs EmptyString EmptyString).
  - apply (same_slot_ok st), H. apply (Hs EmptyString EmptyString).
  - apply (same_slot_ok st), H. apply (Hs c EmptyString).
  - apply (same_slot_ok st), H. apply (Hs c id).
  - apply (same_slot_ok st), H. apply (Hs c id).
  - apply (same_slot_ok st), H. apply (Hs c id).
  - apply (same_slot_ok st), H. apply (Hs c EmptyString).
  - unfold disconnect. destruct (mongoClient st); simpl; [|exact H].
    intros _. split; reflexivity.
Qed.

Lemma run_slot_ok B st rqs : slot_ok st -> slot_ok (run B st rqs).
Proof.
  revert st. induction rqs as [|rq rqs IH]; intros st H; simpl; [exact H|].
  apply IH, serve_slot_ok, H.
Qed.

Lemma disconnect_no_db B srv rqs :
  db (fst (disconnect (run B (initial_state srv) rqs))) = None /\
  db_closed (fst (disconnect (run B (initial_state srv) rqs))) = false.
Proof.
  pose proof (run_slot_ok B (initial_state srv) rqs ltac:(intros _; split; reflexivity)) as H.
  unfold disconnect. destruct (mongoClient _) eqn:Hm; simpl; [split; reflexivity|].
  apply H, Hm.
Qed.

(** ** C1: operations after a disconnect *)

(** C1 (as the code has it).  After [disconnect()] following any sequence of
    requests from the initial state (so also before any connection), the
    browse and list handlers answer 503 "Not connected", but the
    single-document read, update and delete handlers and bulk delete with a
    non-empty id list dereference the null [db] handle: the TypeError is
    caught and answered 500, never with the not-connected error. *)
Theorem after_disconnect_responses B srv rqs :
  let st := fst (disconnect (run B (initial_state srv) rqs)) in
  (forall c q, snd (browse B st c q) = err 503 msg_not_connected) /\
  snd (list_collections st) = err 503 msg_not_connected /\
  (forall c id, snd (get_one B st c id) = err 500 msg_null_db) /\
  (forall c id p now, snd (update_doc B st c id p now) = err 500 msg_null_db) /\
  (forall c id, snd (delete_doc B st c id) = err 500 msg_null_db) /\
  (forall c i ids, snd (bulk_delete B st c [("ids", JArr (i :: ids))]) = err 500 msg_null_db).
Proof.
  intros st. destruct (disconnect_no_db B srv rqs) as [Hdb Hcl]. fold st in Hdb, Hcl.
  unfold browse, list_collections, get_one, update_doc, delete_doc, bulk_delete, no_db_error.
  rewrite Hdb, Hcl. simpl.
  repeat split; intros; destruct (isConnected st); reflexivity.
Qed.

(** ** C3: the update handler *)

Lemma obj_get_none_keys k o : obj_get k o = None -> Forall (fun kv => kv.1 <> k) o.
Proof.
  induction o as [|[k0 v0] o IH]; simpl; intros H; constructor.
  - simpl. intros ->. rewrite String.eqb_refl in H. discriminate.
  - apply IH. destruct (String.eqb k k0); [discriminate|exact H].
Qed.

Lemma update_set_no_id patch now : obj_get "_id" (update_set patch now) = None.
Proof.
  unfold update_set. rewrite obj_get_set. simpl.
  rewrite obj_get_spread_other by apply delete_keys_ne. reflexivity.
Qed.

(** What a successful [updateOne] leaves: each document unchanged, or the
    matched one as [$set] makes it, with the same [_id]. *)
Lemma updateOne_shape B q s docs docs' m n :
  updateOne B q s docs = Some (docs', m, n) ->
  Forall2 (fun d d' => d' = d \/ (match_query B q d = true /\ set_fields B s d = Some d'
                                  /\ obj_get "_id" d' = obj_get "_id" d))
    docs docs'.
Proof.
  revert docs' m n. induction docs as [|d r IH]; simpl; intros docs' m n H.
  - injection H as <- _ _. constructor.
  - destruct (match_query B q d) eqn:Hm.
    + destruct (set_fields B s d) as [d'|] eqn:Hs; [|discriminate].
      destruct (opt_jval_eqb (obj_get "_id" d') (obj_get "_id" d) && doc_ok B d') eqn:E;
        [|discriminate].
      apply andb_prop in E as [E _]. apply opt_jval_eqb_eq in E.
      injection H as <- _ _. constructor; [right; auto|]. apply Forall2_diag. auto.
    + destruct (updateOne B q s r) as [[[r' m'] n']|]; [|discriminate].
      injection H as <- _ _. constructor; [left; reflexivity|]. exact (IH _ _ _ eq_refl).
Qed.

Lemma update_doc_shape B st c id patch now dbn c' :
  Forall2 (fun d d' => d' = d \/ (set_fields B (update_set patch now) d = Some d'
                                  /\ obj_get "_id" d' = obj_get "_id" d))
    (coll_docs st dbn c') (coll_docs (fst (update_doc B st c id patch now)) dbn c').
Proof.
  unfold update_doc. destruct (db st) as [dbn0|]; simpl; [|apply Forall2_diag; auto].
  destruct (negb (update_ok B (update_set patch now))); simpl; [apply Forall2_diag; auto|].
  destruct (updateOne B (mutation_filter id) (update_set patch now) (coll_docs st dbn0 c))
    as [[[docs' m] n]|] eqn:Hu; simpl; [|apply Forall2_diag; auto].
  apply updateOne_shape in Hu.
  destruct (Z.eqb m 0); simpl; [apply Forall2_diag; auto|].
  rewrite coll_docs_set_coll.
  destruct (String.eqb dbn dbn0 && String.eqb c' c) eqn:E; [|apply Forall2_diag; auto].
  apply andb_true_iff in E as [E1 E2].
  apply String.eqb_eq in E1, E2; subst dbn0 c'.
  unfold coll_docs in *. destruct (assoc_get c (server st dbn)).
  - eapply Forall2_impl; [exact Hu|]. intros x y [-> | (_ & H1 & H2)]; auto.
  - constructor.
Qed.

(** C3.  The update handler drops [_id] from the patch and stamps
    [updatedAt]: the applied [$set] has no [_id] key, carries
    [updatedAt = now], and otherwise only keys of the patch; every document
    of every collection is either unchanged or the matched one as the
    server's [$set] makes it, keeping its [_id] (an update that would change
    it fails).  A [$set] of plain field names is applied field by field; for
    the patch [{_id: X, name: y}] it changes [name] and [updatedAt] only. *)
Theorem update_strips_primary_key B st c id patch now :
  let st' := fst (update_doc B st c id patch now) in
  obj_get "_id" (update_set patch now) = None /\
  obj_get "updatedAt" (update_set patch now) = Some (JDate now) /\
  (forall k, obj_get k (update_set patch now) <> None ->
             k = "updatedAt" \/ (k <> "_id" /\ In k (map fst patch))) /\
  (forall dbn c',
     Forall2 (fun d d' => (d' = d \/ set_fields B (update_set patch now) d = Some d')
                          /\ obj_get "_id" d' = obj_get "_id" d)
       (coll_docs st dbn c') (coll_docs st' dbn c')) /\
  (plain_set (update_set patch now) = true ->
   forall d, set_fields B (update_set patch now) d = Some (apply_set (update_set patch now) d)) /\
  (forall X y d, set_fields B (update_set [("_id", X); ("name", JStr y)] now) d
                 = Some (obj_set "updatedAt" (JDate now) (obj_set "name" (JStr y) d))).
Proof.
  intros st'. split; [|split; [|split; [|split; [|split]]]].
  - apply update_set_no_id.
  - unfold update_set. rewrite obj_get_set. reflexivity.
  - intros k Hk. unfold update_set in Hk. rewrite obj_get_set in Hk.
    destruct (String.eqb k "updatedAt") eqn:E; [left; apply String.eqb_eq, E|right].
    apply obj_get_spread_in in Hk as [Hin|Hnil]; [|simpl in Hnil; congruence].
    unfold obj_delete in Hin. apply in_map_iff in Hin as [[k0 v0] [Hk0 Hin]].
    simpl in Hk0; subst k0. apply filter_In in Hin as [Hin Hne]. simpl in Hne.
    split.
    + intros ->. vm_compute in Hne. discriminate.
    + apply in_map_iff. exists (k, v0). auto.
  - intros dbn c'. eapply Forall2_impl; [apply update_doc_shape|].
    intros d d' [-> | [H1 H2]]; split; auto.
  - intros Hp d. unfold set_fields. rewrite Hp. reflexivity.
  - intros X y d. vm_compute. reflexivity.
Qed.

(** ** C4: bulk delete *)

Lemma existsb_orb {A} (f g : A -> bool) l :
  existsb (fun x => f x || g x) l = existsb f l || existsb g l.
Proof.
  induction l as [|x l IH]; simpl; [reflexivity|]. rewrite IH.
  destruct (f x), (g x), (existsb f l), (existsb g l); reflexivity.
Qed.

Lemma bulk_oid_branch B v ids :
  existsb (match_in_elem B v)
    (List.filter is_object_id (map (to_object_id B) (map JStr ids)))
  = existsb (fun s => ObjectId_isValid s && match_eq v (new_ObjectId s)) ids.
Proof.
  induction ids as [|s ids IH]; simpl; [reflexivity|].
  destruct (ObjectId_isValid s); simpl; [|exact IH].
  rewrite IH. reflexivity.
Qed.

Lemma bulk_str_branch B v ids :
  existsb (match_in_elem B v)
    (List.filter is_string (map (to_object_id B) (map JStr ids)))
  = existsb (fun s => negb (ObjectId_isValid s) && match_eq v (JStr s)) ids.
Proof.
  induction ids as [|s ids IH]; simpl; [reflexivity|].
  destruct (ObjectId_isValid s); simpl; [exact IH|].
  rewrite IH. reflexivity.
Qed.

(** The [$or] of [$in] branches the code builds is the specification's union. *)
Lemma bulk_filter_spec B ids d :
  match_query B (bulk_filter B (map JStr ids)) d = spec_bulk_match ids d.
Proof.
  unfold bulk_filter, match_query, spec_bulk_match. simpl.
  rewrite !bulk_oid_branch, !bulk_str_branch.
  rewrite !andb_true_r, orb_false_r. f_equal.
  induction ids as [|s ids IH]; simpl; [reflexivity|].
  rewrite <- IH. btauto.
Qed.

Lemma length_filter_split {A} (f : A -> bool) (l : list A) :
  length l = (length (List.filter (fun x => negb (f x)) l) + length (List.filter f l))%nat.
Proof.
  induction l as [|x l IH]; simpl; [reflexivity|].
  destruct (f x); simpl; lia.
Qed.

(** C4.  Bulk delete answers 400 unless [ids] is a non-empty array; for a
    non-empty list of id strings it removes from the collection exactly the
    documents of the specification's union (primary key among the validly
    encoded ids, or [sessionId]/[userId]/[chatId] among the other strings),
    reports their number, which is the number of documents that disappear,
    and touches no other collection. *)
Theorem bulk_delete_union B st c body dbn :
  db st = Some dbn ->
  ((match obj_get "ids" body with Some (JArr (_ :: _)) => false | _ => true end) = true ->
     bulk_delete B st c body = (st, err 400 "No IDs provided")) /\
  (forall i ids, obj_get "ids" body = Some (JArr (map JStr (i :: ids))) ->
     let st' := fst (bulk_delete B st c body) in
     let hit := List.filter (spec_bulk_match (i :: ids)) (coll_docs st dbn c) in
     coll_docs st' dbn c
       = List.filter (fun d => negb (spec_bulk_match (i :: ids) d)) (coll_docs st dbn c) /\
     snd (bulk_delete B st c body)
       = mkResponse 200 (PCount "deletedCount" (Z.of_nat (length hit))) /\
     length (coll_docs st dbn c) = (length (coll_docs st' dbn c) + length hit)%nat /\
     (forall dbn' c', (String.eqb dbn' dbn && String.eqb c' c) = false ->
                      coll_docs st' dbn' c' = coll_docs st dbn' c')).
Proof.
  intros Hdb. split.
  - intros H. unfold bulk_delete.
    destruct (obj_get "ids" body) as [[| | | |[|? ?]| | | |]|]; try reflexivity.
    discriminate.
  - intros i ids Hids st' hit.
    assert (Hdel : bulk_delete B st c body
                   = (set_coll st dbn c
                        (List.filter (fun d => negb (spec_bulk_match (i :: ids) d))
                           (coll_docs st dbn c)),
                      mkResponse 200 (PCount "deletedCount" (Z.of_nat (length hit))))).
    { unfold bulk_delete. rewrite Hids. simpl map. rewrite Hdb.
      change (JStr i :: map JStr ids) with (map JStr (i :: ids)).
      unfold deleteMany, hit.
      rewrite (filter_ext (match_query B (bulk_filter B (map JStr (i :: ids))))
                 (spec_bulk_match (i :: ids))) by apply bulk_filter_spec.
      rewrite (filter_ext (fun d => negb (match_query B (bulk_filter B (map JStr (i :: ids))) d))
                 (fun d => negb (spec_bulk_match (i :: ids) d)))
        by (intros d; rewrite bulk_filter_spec; reflexivity).
      reflexivity. }
    unfold st'. rewrite Hdel. simpl fst. simpl snd.
    assert (Hself : coll_docs (set_coll st dbn c
                      (List.filter (fun d => negb (spec_bulk_match (i :: ids) d))
                         (coll_docs st dbn c))) dbn c
                    = List.filter (fun d => negb (spec_bulk_match (i :: ids) d))
                        (coll_docs st dbn c)).
    { rewrite coll_docs_set_coll, !String.eqb_refl. simpl.
      unfold coll_docs. destruct (assoc_get c (server st dbn)); reflexivity. }
    rewrite Hself. split; [reflexivity|split; [reflexivity|split]].
    + unfold hit. apply length_filter_split.
    + intros dbn' c' Hne. rewrite coll_docs_set_coll, Hne. reflexivity.
Qed.

(** ** C5: a filter that does not parse *)

Lemma build_query_parse_fail B search f :
  JSON_parse B f = None -> build_query B search f = build_query B search "{}".
Proof.
  intros Hp. unfold build_query.
  destruct (if String.eqb search EmptyString then _ else _) as [query|]; [|reflexivity].
  destruct (String.eqb f "{}"); [reflexivity|]. rewrite Hp. reflexivity.
Qed.

(** C5.  Adding a [filter] parameter that [JSON.parse] rejects to a browse
    request changes nothing: the response (and the state) are those of the
    same request without it, whatever the search term. *)
Theorem malformed_filter_ignored B st c q f :
  assoc_get "filter" q = None -> JSON_parse B f = None ->
  browse B st c (("filter", QStr f) :: q) = browse B st c q.
Proof.
  intros Hq Hp. unfold browse, qparam. simpl assoc_get.
  rewrite Hq. unfold filter_term at 1. rewrite (build_query_parse_fail B _ f Hp). reflexivity.
Qed.

(** ** C6: merging the search and the filter *)

Lemma NoDup_app_disjoint {A} (l1 l2 : list A) a :
  List.NoDup (app l1 l2) -> In a l1 -> ~ In a l2.
Proof.
  induction l1 as [|b l1 IH]; intros Hnd Hin; [destruct Hin|].
  simpl in Hnd. apply NoDup_cons_iff in Hnd as [Hb Hnd].
  destruct Hin as [<-|Hin].
  - intros H. apply Hb, in_or_app. right. exact H.
  - exact (IH Hnd Hin).
Qed.

Lemma obj_set_fresh k v acc :
  Forall (fun kv => kv.1 <> k) acc -> obj_set k v acc = app acc [(k, v)].
Proof.
  induction acc as [|[k0 v0] acc IH]; intros H; simpl; [reflexivity|].
  inversion H as [|? ? Hk Hr]; subst. simpl in Hk.
  destruct (String.eqb k k0) eqn:E.
  - apply String.eqb_eq in E. congruence.
  - rewrite IH by exact Hr. reflexivity.
Qed.

Lemma obj_spread_fresh acc F :
  List.NoDup (map fst F) -> (forall k, In k (map fst F) -> ~ In k (map fst acc)) ->
  obj_spread acc F = app acc F.
Proof.
  unfold obj_spread. revert acc.
  induction F as [|[k v] F IH]; intros acc Hnd Hdis; simpl; [rewrite app_nil_r; reflexivity|].
  apply NoDup_cons_iff in Hnd as [Hk Hnd].
  rewrite obj_set_fresh.
  - rewrite IH; [rewrite <- app_assoc; reflexivity|exact Hnd|].
    intros k' Hin Hin'. rewrite map_app, in_app_iff in Hin'. simpl in Hin'.
    destruct Hin' as [Hin'|[<-|[]]].
    + apply (Hdis k'); [right; exact Hin|exact Hin'].
    + exact (Hk Hin).
  - apply List.Forall_forall. intros [k0 v0] Hin Heq. simpl in Heq; subst k0.
    apply (Hdis k); [left; reflexivity|]. apply in_map_iff. exists (k, v0). auto.
Qed.

Lemma match_query_app B q1 q2 d :
  match_query B (app q1 q2) d = match_query B q1 d && match_query B q2 d.
Proof. unfold match_query. apply forallb_app. Qed.

(** Spreading a filter over a one-key query: the filter's own key wins. *)
Lemma match_spread_single B k0 v0 F d :
  List.NoDup (map fst F) ->
  match_query B (obj_spread [(k0, v0)] F) d =
  (if existsb (String.eqb k0) (map fst F) then true else match_clause B k0 v0 d)
  && match_query B F d.
Proof.
  intros Hnd. destruct (existsb (String.eqb k0) (map fst F)) eqn:E.
  - apply existsb_exists in E as [k [Hin Hk]]. apply String.eqb_eq in Hk; subst k.
    apply in_map_iff in Hin as [[k v] [Hk Hin]]. simpl in Hk; subst k.
    apply in_split in Hin as (F1 & F2 & ->).
    rewrite map_app in Hnd. simpl in Hnd.
    pose proof Hnd as Hnd'. apply NoDup_remove_2 in Hnd'.
    rewrite in_app_iff in Hnd'.
    apply NoDup_remove_1 in Hnd.
    unfold obj_spread. rewrite fold_left_app. fold (obj_spread [(k0, v0)] F1).
    rewrite (obj_spread_fresh [(k0, v0)] F1).
    2: { eapply NoDup_app_remove_r. exact Hnd. }
    2: { intros k Hk [<-|[]]. apply Hnd'. left. exact Hk. }
    simpl. rewrite String.eqb_refl. fold (obj_spread ((k0, v) :: F1) F2).
    rewrite (obj_spread_fresh ((k0, v) :: F1) F2).
    2: { eapply NoDup_app_remove_l. exact Hnd. }
    2: { intros k Hk [<-|Hk1].
         - apply Hnd'. right. exact Hk.
         - exact (NoDup_app_disjoint _ _ k Hnd Hk1 Hk). }
    unfold match_query. simpl. rewrite !forallb_app. simpl. btauto.
  - rewrite (obj_spread_fresh [(k0, v0)] F Hnd).
    2: { intros k Hk [<-|[]]. apply Bool.not_true_iff_false in E. apply E.
         apply existsb_exists. exists k0. split; [exact Hk|apply String.eqb_refl]. }
    unfold match_query. simpl. reflexivity.
Qed.

(** C6.  With a non-empty search term and a filter that parses to an object
    (whose keys are distinct, as in every JavaScript object), the builder
    merges the two key-wise, the filter winning on a key collision: a
    document matches the query iff it matches every clause of the filter and,
    unless the filter has its own top-level [$or] (the one key of the search
    condition), also the search condition. *)
Theorem search_filter_merge B search f F :
  String.eqb search EmptyString = false -> RegExp_ok B search = true ->
  String.eqb f "{}" = false -> JSON_parse B f = Some (JObj F) ->
  List.NoDup (map fst F) ->
  exists query, build_query B search f = Some query /\
    forall d, match_query B query d =
      (if existsb (String.eqb "$or") (map fst F) then true
       else match_query B (search_query search) d) && match_query B F d.
Proof.
  intros Hs Hr Hf Hp Hnd. unfold build_query. rewrite Hs, Hr, Hf, Hp.
  eexists; split; [reflexivity|]. intros d. simpl spread_source.
  unfold search_query at 1. unfold obj_spread at 2. simpl fold_left.
  rewrite (match_spread_single B _ _ F d Hnd).
  unfold match_query at 2. simpl forallb. rewrite andb_true_r. reflexivity.
Qed.

(** ** Witnesses *)

Lemma bulk_delete_union_witness :
  db (Demo.connected [("sessions", Demo.bulk_docs)]) = Some "admin" /\
  ((match obj_get "ids" [("ids", JArr [JStr Demo.oid1; JStr "s-1"])]
    with Some (JArr (_ :: _)) => false | _ => true end) = true ->
     bulk_delete Demo.builtins_demo (Demo.connected [("sessions", Demo.bulk_docs)]) "sessions"
       [("ids", JArr [JStr Demo.oid1; JStr "s-1"])]
     = (Demo.connected [("sessions", Demo.bulk_docs)], err 400 "No IDs provided")) /\
  (forall i ids, obj_get "ids" [("ids", JArr [JStr Demo.oid1; JStr "s-1"])]
                 = Some (JArr (map JStr (i :: ids))) ->
     let B := Demo.builtins_demo in
     let st := Demo.connected [("sessions", Demo.bulk_docs)] in
     let body := [("ids", JArr [JStr Demo.oid1; JStr "s-1"])] in
     let st' := fst (bulk_delete B st "sessions" body) in
     let hit := List.filter (spec_bulk_match (i :: ids)) (coll_docs st "admin" "sessions") in
     coll_docs st' "admin" "sessions"
       = List.filter (fun d => negb (spec_bulk_match (i :: ids) d))
           (coll_docs st "admin" "sessions") /\
     snd (bulk_delete B st "sessions" body)
       = mkResponse 200 (PCount "deletedCount" (Z.of_nat (length hit))) /\
     length (coll_docs st "admin" "sessions") = (length (coll_docs st' "admin" "sessions") + length hit)%nat /\
     (forall dbn' c', (String.eqb dbn' "admin" && String.eqb c' "sessions") = false ->
                      coll_docs st' dbn' c' = coll_docs st dbn' c')).
Proof.
  split; [reflexivity|].
  exact (bulk_delete_union Demo.builtins_demo (Demo.connected [("sessions", Demo.bulk_docs)])
           "sessions" [("ids", JArr [JStr Demo.oid1; JStr "s-1"])] "admin" eq_refl).
Defined.

Lemma malformed_filter_ignored_witness :
  assoc_get "filter" [("search", QStr "zzz")] = None /\
  JSON_parse Demo.builtins_demo "{a" = None /\
  browse Demo.builtins_demo (Demo.connected [("sessions", Demo.bulk_docs)]) "sessions"
    [("filter", QStr "{a"); ("search", QStr "zzz")]
  = browse Demo.builtins_demo (Demo.connected [("sessions", Demo.bulk_docs)]) "sessions"
      [("search", QStr "zzz")].
Proof.
  split; [reflexivity|]. split; [vm_compute; reflexivity|].
  apply malformed_filter_ignored; [reflexivity|vm_compute; reflexivity].
Defined.

Lemma search_filter_merge_witness :
  JSON_parse Demo.builtins_demo Demo.filter_a1 = Some (JObj [("a", JNum 1)]) /\
  exists query, build_query Demo.builtins_demo "zzz" Demo.filter_a1 = Some query /\
    forall d, match_query Demo.builtins_demo query d =
      (if existsb (String.eqb "$or") (map fst [("a", JNum 1)]) then true
       else match_query Demo.builtins_demo (search_query "zzz") d)
      && match_query Demo.builtins_demo [("a", JNum 1)] d.
Proof.
  split; [vm_compute; reflexivity|].
  apply search_filter_merge; [reflexivity|reflexivity|vm_compute; reflexivity
    |vm_compute; reflexivity|].
  constructor; [intros []|constructor].
Defined.

(** ** C2: the predicates of the single-document handlers *)

Lemma pk_filter_match B id d :
  match_query B (pk_filter id) d = match_eq (obj_get "_id" d) (new_ObjectId id).
Proof. unfold match_query, pk_filter. simpl. apply andb_true_r. Qed.

Lemma mut_alt_filter_match B id d :
  match_query B (mut_alt_filter id) d =
  match_eq (obj_get "sessionId" d) (JStr id) || match_eq (obj_get "userId" d) (JStr id)
  || match_eq (obj_get "chatId" d) (JStr id).
Proof. unfold match_query, mut_alt_filter. simpl. btauto. Qed.

Lemma get_alt_filter_match B id d :
  match_query B (get_alt_filter id) d =
  match_eq (obj_get "sessionId" d) (JStr id) || match_eq (obj_get "userId" d) (JStr id)
  || match_eq (obj_get "chatId" d) (JStr id) || match_eq (obj_get "_id" d) (JStr id).
Proof. unfold match_query, get_alt_filter. simpl. btauto. Qed.

Lemma find_split {A} (p : A -> bool) l x :
  List.find p l = Some x ->
  exists pre post, l = app pre (x :: post) /\ forallb (fun e => negb (p e)) pre = true
                   /\ p x = true.
Proof.
  induction l as [|y l IH]; simpl; [discriminate|].
  destruct (p y) eqn:Hy.
  - intros [= <-]. exists [], l. auto.
  - intros H. destruct (IH H) as (pre & post & -> & Hpre & Hx).
    exists (y :: pre), post. simpl. rewrite Hy, Hpre. auto.
Qed.

Lemma find_none_forallb {A} (p : A -> bool) l :
  List.find p l = None -> forallb (fun e => negb (p e)) l = true.
Proof.
  induction l as [|y l IH]; simpl; [reflexivity|].
  destruct (p y); [discriminate|]. simpl. exact IH.
Qed.

Lemma forallb_find_none {A} (p : A -> bool) l :
  forallb (fun e => negb (p e)) l = true -> List.find p l = None.
Proof.
  induction l as [|y l IH]; simpl; [reflexivity|].
  destruct (p y); simpl; [discriminate|]. exact IH.
Qed.

Lemma find_in_some {A} (p : A -> bool) l x :
  In x l -> p x = true -> exists y, List.find p l = Some y /\ p y = true.
Proof.
  intros Hin Hx. destruct (List.find p l) as [y|] eqn:E.
  - exists y. split; [reflexivity|]. exact (proj2 (find_some p l E)).
  - apply find_none_forallb in E. rewrite forallb_forall in E.
    specialize (E x Hin). rewrite Hx in E. discriminate.
Qed.

Lemma find_ext {A} (p q : A -> bool) l :
  (forall x, p x = q x) -> List.find p l = List.find q l.
Proof.
  intros H. induction l as [|x l IH]; simpl; [reflexivity|]. rewrite H, IH. reflexivity.
Qed.

Lemma forallb_negb_ext {A} (p q : A -> bool) l :
  (forall x, p x = q x) ->
  forallb (fun e => negb (p e)) l = forallb (fun e => negb (q e)) l.
Proof.
  intros H. induction l as [|x l IH]; simpl; [reflexivity|]. rewrite H, IH. reflexivity.
Qed.

Lemma deleteOne_none B q docs :
  forallb (fun e => negb (match_query B q e)) docs = true -> deleteOne B q docs = (docs, 0).
Proof.
  induction docs as [|d r IH]; simpl; [reflexivity|].
  destruct (match_query B q d); simpl; [discriminate|].
  intros H. rewrite (IH H). reflexivity.
Qed.

Lemma updateOne_none B q s docs :
  forallb (fun e => negb (match_query B q e)) docs = true ->
  updateOne B q s docs = Some (docs, 0, 0).
Proof.
  induction docs as [|d r IH]; simpl; [reflexivity|].
  destruct (match_query B q d); simpl; [discriminate|].
  intros H. rewrite (IH H). reflexivity.
Qed.

Lemma deleteOne_split B q pre d post :
  forallb (fun e => negb (match_query B q e)) pre = true -> match_query B q d = true ->
  deleteOne B q (app pre (d :: post)) = (app pre post, 1).
Proof.
  intros Hpre Hd. induction pre as [|e pre IH]; simpl in *; [rewrite Hd; reflexivity|].
  destruct (match_query B q e); simpl in *; [discriminate|].
  rewrite (IH Hpre). reflexivity.
Qed.

(** C2 (as the code has it).  For an id that is a valid ObjectId, in a
    collection where no document has that primary key but some document is
    selected by the specification's combined predicate (through its
    [sessionId], [userId] or [chatId]), getOne answers 200 with a document
    found by its fallback, while update and deleteOne, which match by
    primary key alone for such an id, answer 404 and change nothing. *)
Theorem mutations_skip_fallback B st dbn c id patch now d :
  db st = Some dbn ->
  ObjectId_isValid id = true ->
  forallb (fun e => negb (match_eq (obj_get "_id" e) (new_ObjectId id)))
    (coll_docs st dbn c) = true ->
  List.find (spec_single_match id) (coll_docs st dbn c) = Some d ->
  update_ok B (update_set patch now) = true ->
  spec_single_match id d = true /\
  (exists d', List.find (match_query B (get_alt_filter id)) (coll_docs st dbn c) = Some d' /\
              snd (get_one B st c id) = mkResponse 200 (PDoc d')) /\
  delete_doc B st c id = (st, err 404 msg_not_found) /\
  update_doc B st c id patch now = (st, err 404 msg_not_found).
Proof.
  intros Hdb Hv Hpk Hfind Hok.
  pose proof (find_some _ _ Hfind) as [Hin Hd].
  assert (Hpk' : forallb (fun e => negb (match_query B (mutation_filter id) e))
                   (coll_docs st dbn c) = true).
  { unfold mutation_filter. rewrite Hv.
    rewrite (forallb_negb_ext _ _ _ (pk_filter_match B id)). exact Hpk. }
  split; [exact Hd|split; [|split]].
  - assert (Halt : match_query B (get_alt_filter id) d = true).
    { rewrite get_alt_filter_match.
      rewrite forallb_forall in Hpk. specialize (Hpk d Hin).
      unfold spec_single_match in Hd. rewrite Hv in Hd. simpl in Hd.
      destruct (match_eq (obj_get "_id" d) (new_ObjectId id)); [discriminate|].
      simpl in Hd. rewrite Hd. reflexivity. }
    destruct (find_in_some _ _ _ Hin Halt) as [d' [Hf _]].
    exists d'. split; [exact Hf|].
    unfold get_one, findOne. rewrite Hdb, Hv.
    rewrite (forallb_find_none (match_query B (pk_filter id))).
    + rewrite Hf. reflexivity.
    + rewrite (forallb_negb_ext _ _ _ (pk_filter_match B id)). exact Hpk.
  - unfold delete_doc. rewrite Hdb, (deleteOne_none B _ _ Hpk'). reflexivity.
  - unfold update_doc. rewrite Hdb, Hok. simpl negb. cbv iota.
    rewrite (updateOne_none B _ _ _ Hpk'). reflexivity.
Qed.

Lemma mutations_skip_fallback_witness :
  let B := Demo.builtins_demo in
  let st := Demo.connected
              [("sessions", [[("_id", JOid Demo.oid2); ("sessionId", JStr Demo.oid1)]])] in
  spec_single_match Demo.oid1 [("_id", JOid Demo.oid2); ("sessionId", JStr Demo.oid1)] = true /\
  (exists d', List.find (match_query B (get_alt_filter Demo.oid1)) (coll_docs st "admin" "sessions")
              = Some d' /\
              snd (get_one B st "sessions" Demo.oid1) = mkResponse 200 (PDoc d')) /\
  delete_doc B st "sessions" Demo.oid1 = (st, err 404 msg_not_found) /\
  update_doc B st "sessions" Demo.oid1 [("name", JStr "y")] 0 = (st, err 404 msg_not_found).
Proof.
  intros B st.
  apply (mutations_skip_fallback B st "admin" "sessions" Demo.oid1 [("name", JStr "y")] 0
           [("_id", JOid Demo.oid2); ("sessionId", JStr Demo.oid1)]);
    vm_compute; reflexivity.
Defined.

(** ** Rounding of integers and quotients to doubles *)
























(** ** C8: what removes documents *)

Lemma info_server st : server (fst (info st)) = server st.
Proof. unfold info. repeat case_match; reflexivity. Qed.

Lemma list_server st : server (fst (list_collections st)) = server st.
Proof. unfold list_collections. repeat case_match; reflexivity. Qed.

Lemma browse_server B st c q : server (fst (browse B st c q)) = server st.
Proof. unfold browse. repeat case_match; reflexivity. Qed.

Lemma get_one_server B st c id : server (fst (get_one B st c id)) = server st.
Proof. unfold get_one. repeat case_match; reflexivity. Qed.

Lemma connect_server B st b o : server (fst (connect B st b o)) = server st.
Proof. unfold connect. repeat case_match; reflexivity. Qed.

Lemma disconnect_server st : server (fst (disconnect st)) = server st.
Proof. unfold disconnect. repeat case_match; reflexivity. Qed.

(** C8 (as the code has it).  There is no prune operation: the only
    requests after which a collection holds fewer documents are
    [DELETE /api/collections/:c/:id] and
    [POST /api/collections/:c/bulk-delete] on that collection, with a
    connection to its database; both select documents by identifiers. *)
Theorem only_id_deletes_shrink B st rq dbn c :
  (length (coll_docs (fst (serve B st rq)) dbn c) < length (coll_docs st dbn c))%nat ->
  db st = Some dbn /\
  ((exists id, route_of B (rq_method rq) (rq_path rq) = RDelete c id) \/
   route_of B (rq_method rq) (rq_path rq) = RBulkDelete c).
Proof.
  unfold serve.
  destruct (rq_limited rq && under_api (rq_path rq)); simpl fst; [lia|].
  destruct (route_of B (rq_method rq) (rq_path rq)) as
    [| | |c0|c0 id|c0 id|c0 id|c0| | |] eqn:Hr; intros Hlt;
    try (exfalso; rewrite (coll_docs_server st) in Hlt;
         [exact (Nat.lt_irrefl _ Hlt)
         |first [apply info_server|apply list_server|apply browse_server|apply get_one_server
                |apply connect_server|apply disconnect_server|reflexivity]]).
  - pose proof (update_doc_shape B st c0 id (rq_body rq) (rq_now rq) dbn c) as Hs.
    apply Forall2_length in Hs. lia.
  - unfold delete_doc in Hlt. destruct (db st) as [dbn0|] eqn:Hdb; simpl in Hlt; [|lia].
    destruct (deleteOne B _ _) as [docs' n]. destruct (Z.eqb n 0); simpl in Hlt; [lia|].
    rewrite coll_docs_set_coll in Hlt.
    destruct (String.eqb dbn dbn0 && String.eqb c c0) eqn:E; [|lia].
    apply andb_true_iff in E as [E1 E2]. apply String.eqb_eq in E1, E2. subst.
    split; [reflexivity|left; eauto].
  - unfold bulk_delete in Hlt.
    destruct (obj_get "ids" (rq_body rq)) as [[| | | | [|i ids] | | | |]|]; cbn [fst] in Hlt;
      try lia.
    destruct (db st) as [dbn0|] eqn:Hdb; cbn [fst] in Hlt; [|lia].
    destruct (deleteMany B _ _) as [docs' n]. cbn [fst] in Hlt.
    rewrite coll_docs_set_coll in Hlt.
    destruct (String.eqb dbn dbn0 && String.eqb c c0) eqn:E; [|lia].
    apply andb_true_iff in E as [E1 E2]. apply String.eqb_eq in E1, E2. subst.
    split; [reflexivity|right; reflexivity].
Qed.

Lemma only_id_deletes_shrink_witness :
  let st := Demo.connected [("sessions", Demo.bulk_docs)] in
  let rq := mkRequest DELETE ["api"; "collections"; "sessions"; Demo.oid1] [] [] 0 ConnectOk false in
  (length (coll_docs (fst (serve Demo.builtins_demo st rq)) "admin" "sessions")
   < length (coll_docs st "admin" "sessions"))%nat /\
  db st = Some "admin" /\
  ((exists id, route_of Demo.builtins_demo (rq_method rq) (rq_path rq) = RDelete "sessions" id) \/
   route_of Demo.builtins_demo (rq_method rq) (rq_path rq) = RBulkDelete "sessions").
Proof.
  intros st rq.
  assert (H : (length (coll_docs (fst (serve Demo.builtins_demo st rq)) "admin" "sessions")
               < length (coll_docs st "admin" "sessions"))%nat).
  { apply Nat.ltb_lt. vm_compute. reflexivity. }
  split; [exact H|]. exact (only_id_deletes_shrink Demo.builtins_demo st rq "admin" "sessions" H).
Defined.

(** C8, counterexample.  A prune request, with [days = 7] and
    [dateField = lastActive], is not a route: it is answered 404 and a
    session last active at time 0 stays in place thirty days later. *)
Lemma no_prune_route :
  let st := Demo.connected
              [("sessions", [[("_id", JOid Demo.oid1); ("lastActive", JDate 0)]])] in
  let now := 30 * 86400000 in
  let body := [("days", JNum 7); ("dateField", JStr "lastActive")] in
  serve Demo.builtins_demo st
    (mkRequest POST ["api"; "collections"; "sessions"; "prune"] [] body now ConnectOk false)
  = (st, err 404 msg_route_not_found) /\
  serve Demo.builtins_demo st
    (mkRequest POST ["api"; "collections"; "sessions"; "prune-old"] [] body now ConnectOk false)
  = (st, err 404 msg_route_not_found) /\
  serve Demo.builtins_demo st (mkRequest POST ["api"; "prune"] [] body now ConnectOk false)
  = (st, err 404 msg_route_not_found).
Proof. intros st now body. split; [|split]; vm_compute; reflexivity. Qed.

(** ** C9, C10: the search condition *)












(** * Further properties of the handlers *)

(** ** Connecting and disconnecting *)

(** Connect ends in one of three ways: without a truthy [url] it answers 400
    and changes nothing; a failed attempt answers 500 "Connection failed"
    with [isConnected] false and the server untouched; a successful one
    answers 200 and holds the chosen database. *)
Theorem connect_outcomes B st b o :
  (status (snd (connect B st b o)) = 400 /\ fst (connect B st b o) = st
   /\ truthy (obj_get "url" b) = false) \/
  (snd (connect B st b o) = err 500 "Connection failed"
   /\ isConnected (fst (connect B st b o)) = false
   /\ server (fst (connect B st b o)) = server st) \/
  (exists n, snd (connect B st b o) = mkResponse 200 (PConnected n)
   /\ fst (connect B st b o) = mkState true (Some n) false true (server st) /\ o = ConnectOk).
Proof.
  unfold connect.
  destruct (truthy (obj_get "url" b)) eqn:Ht; simpl; [|left; auto].
  right. repeat case_match; subst; simpl; try congruence;
    first [left; auto; fail | right; eexists; auto].
Qed.


(** A connect attempt while a client is open first closes that client; when
    the new connection is then refused, the variable [db] still holds the
    old, closed handle.  The attempt answers 500 "Connection failed" with
    [isConnected] false; browse and list-collections answer 503, and the
    single-document read, update and delete, and bulk delete, answer 500
    with the driver's "Client must be connected before running
    operations". *)
Theorem failed_connect_closes_handle B st b u dbn :
  mongoClient st = true -> db st = Some dbn ->
  obj_get "url" b = Some (JStr u) -> String.eqb u EmptyString = false ->
  MongoClient_ok B u = true ->
  let st' := fst (connect B st b ConnectRefused) in
  snd (connect B st b ConnectRefused) = err 500 "Connection failed" /\
  isConnected st' = false /\ server st' = server st /\
  (forall c q, snd (browse B st' c q) = err 503 msg_not_connected) /\
  snd (list_collections st') = err 503 msg_not_connected /\
  (forall c id, snd (get_one B st' c id) = err 500 msg_client_closed) /\
  (forall c id p now, snd (update_doc B st' c id p now) = err 500 msg_client_closed) /\
  (forall c id, snd (delete_doc B st' c id) = err 500 msg_client_closed) /\
  (forall c i ids, snd (bulk_delete B st' c [("ids", JArr (i :: ids))])
                   = err 500 msg_client_closed).
Proof.
  intros Hmc Hdb Hu Hne Hm st'.
  assert (Hc : connect B st b ConnectRefused
               = (mkState true None true false (server st), err 500 "Connection failed")).
  { unfold connect. rewrite Hu. simpl truthy. rewrite Hne. simpl negb. rewrite Hm, Hmc, Hdb.
    rewrite orb_true_r. reflexivity. }
  assert (Hst : st' = mkState true None true false (server st)) by (unfold st'; rewrite Hc; reflexivity).
  rewrite Hc, Hst. split; [reflexivity|]. split; [reflexivity|]. split; [reflexivity|].
  repeat split; intros; reflexivity.
Qed.

(** Disconnecting always answers 200, and a second disconnect changes
    nothing. *)
Theorem disconnect_idempotent st :
  snd (disconnect st) = mkResponse 200 PDone /\
  disconnect (fst (disconnect st)) = (fst (disconnect st), mkResponse 200 PDone).
Proof. unfold disconnect. destruct (mongoClient st) eqn:E; simpl; [|rewrite E]; auto. Qed.

(** ** Routing *)





(** Only connect and disconnect touch the connection: every other request
    leaves [mongoClient], [db] and [isConnected] as they were. *)
Theorem data_requests_keep_connection B st rq :
  route_of B (rq_method rq) (rq_path rq) <> RConnect ->
  route_of B (rq_method rq) (rq_path rq) <> RDisconnect ->
  mongoClient (fst (serve B st rq)) = mongoClient st /\ db (fst (serve B st rq)) = db st /\
  isConnected (fst (serve B st rq)) = isConnected st.
Proof.
  unfold serve. destruct (rq_limited rq && under_api (rq_path rq)); [auto|].
  destruct (route_of B _ _); intros H1 H2; try congruence;
    unfold info, list_collections, browse, get_one, update_doc, delete_doc, bulk_delete;
    repeat case_match; simpl; auto.
Qed.

(** ** Writes: what they do to the collections *)

Lemma deleteOne_length B q docs : (length (fst (deleteOne B q docs)) <= length docs)%nat.
Proof.
  induction docs as [|d r IH]; simpl; [lia|].
  destruct (match_query B q d); simpl; [lia|].
  destruct (deleteOne B q r) as [r' n]. simpl in *. lia.
Qed.

Lemma set_coll_le st dbn0 c0 l dbn c :
  (length l <= length (coll_docs st dbn0 c0))%nat ->
  (length (coll_docs (set_coll st dbn0 c0 l) dbn c) <= length (coll_docs st dbn c))%nat.
Proof.
  intros H. rewrite coll_docs_set_coll.
  destruct (String.eqb dbn dbn0 && String.eqb c c0) eqn:E; [|lia].
  apply andb_true_iff in E as [E1 E2]. apply String.eqb_eq in E1, E2. subst.
  unfold coll_docs in *. destruct (assoc_get c0 (server st dbn0)); simpl; lia.
Qed.

Lemma serve_never_grows B st rq dbn c :
  (length (coll_docs (fst (serve B st rq)) dbn c) <= length (coll_docs st dbn c))%nat.
Proof.
  unfold serve. destruct (rq_limited rq && under_api (rq_path rq)); [simpl; lia|].
  destruct (route_of B (rq_method rq) (rq_path rq)) as
    [| | |c0|c0 id|c0 id|c0 id|c0| | |];
    try (rewrite (coll_docs_server st);
         [lia
         |first [apply info_server|apply list_server|apply browse_server|apply get_one_server
                |apply connect_server|apply disconnect_server|reflexivity]]).
  - pose proof (update_doc_shape B st c0 id (rq_body rq) (rq_now rq) dbn c) as Hs.
    apply Forall2_length in Hs. lia.
  - unfold delete_doc. destruct (db st) as [dbn0|]; cbn [fst]; [|lia].
    pose proof (deleteOne_length B (mutation_filter id) (coll_docs st dbn0 c0)) as Hl.
    destruct (deleteOne B _ _) as [docs' n]. destruct (Z.eqb n 0); cbn [fst]; [lia|].
    apply set_coll_le. exact Hl.
  - unfold bulk_delete.
    destruct (obj_get "ids" (rq_body rq)) as [[| | | | [|i ids] | | | |]|]; cbn [fst]; try lia.
    destruct (db st) as [dbn0|]; cbn [fst]; [|lia].
    unfold deleteMany. cbn [fst]. apply set_coll_le. apply filter_length_le.
Qed.

(** No request ever adds a document: along any sequence of requests, no
    collection of any database grows. *)
Theorem run_never_grows B st rqs dbn c :
  (length (coll_docs (run B st rqs) dbn c) <= length (coll_docs st dbn c))%nat.
Proof.
  revert st. induction rqs as [|rq rqs IH]; intros st; simpl; [lia|].
  specialize (IH (fst (serve B st rq))). pose proof (serve_never_grows B st rq dbn c). lia.
Qed.

Lemma find_pk_filter B id l :
  List.find (match_query B (pk_filter id)) l
  = List.find (fun e => match_eq (obj_get "_id" e) (new_ObjectId id)) l.
Proof.
  induction l as [|x l IH]; cbn [List.find]; [reflexivity|].
  rewrite pk_filter_match, IH. reflexivity.
Qed.

Lemma forallb_pk_filter B id l :
  forallb (fun e => negb (match_query B (pk_filter id) e)) l
  = forallb (fun e => negb (match_eq (obj_get "_id" e) (new_ObjectId id))) l.
Proof.
  induction l as [|x l IH]; cbn [forallb]; [reflexivity|].
  rewrite pk_filter_match, IH. reflexivity.
Qed.

Lemma find_app_first {A} (p : A -> bool) pre x post :
  forallb (fun e => negb (p e)) pre = true -> p x = true ->
  List.find p (app pre (x :: post)) = Some x.
Proof.
  intros Hpre Hx. induction pre as [|e pre IH]; simpl in *; [rewrite Hx; reflexivity|].
  destruct (p e); simpl in *; [discriminate|]. exact (IH Hpre).
Qed.

(** [jval_eqb] is reflexive. *)
Fixpoint jval_eqb_refl (x : jval) {struct x} : jval_eqb x x = true.
Proof.
  destruct x as [|b|n|s|l|o|h|ms|p f]; simpl.
  - reflexivity.
  - apply Bool.eqb_reflx.
  - apply Z.eqb_refl.
  - apply String.eqb_refl.
  - revert l. fix go 1. intros [|a l]; [reflexivity|].
    cbn beta iota. rewrite (jval_eqb_refl a). exact (go l).
  - revert o. fix go 1. intros [|[k a] o]; [reflexivity|].
    cbn beta iota. rewrite String.eqb_refl, (jval_eqb_refl a). exact (go o).
  - apply String.eqb_refl.
  - apply Z.eqb_refl.
  - rewrite !String.eqb_refl. reflexivity.
Qed.

Lemma opt_jval_eqb_refl x : opt_jval_eqb x x = true.
Proof. destruct x; simpl; [apply jval_eqb_refl|reflexivity]. Qed.

Lemma sort_fields_perm s : Permutation (sort_fields s) s.
Proof. unfold sort_fields. apply merge_sort_Permutation. Qed.

(** A [$set] of plain fields leaves the other keys alone. *)
Lemma apply_set_other k s d :
  Forall (fun kv => kv.1 <> k) s -> obj_get k (apply_set s d) = obj_get k d.
Proof.
  intros H. unfold apply_set.
  change (obj_get k (obj_spread d (sort_fields s)) = obj_get k d).
  apply obj_get_spread_other. apply List.Forall_forall. intros x Hx.
  rewrite List.Forall_forall in H. apply H.
  exact (Permutation_in _ (sort_fields_perm s) Hx).
Qed.

Lemma apply_update_keeps_id patch now d :
  obj_get "_id" (apply_set (update_set patch now) d) = obj_get "_id" d.
Proof. apply apply_set_other, obj_get_none_keys, update_set_no_id. Qed.

(** [updateOne] on a collection whose first match is [d], for a [$set] of
    plain fields that keeps [_id] and gives a storable document. *)
Lemma updateOne_split_full B q s pre d post :
  forallb (fun e => negb (match_query B q e)) pre = true -> match_query B q d = true ->
  plain_set s = true -> obj_get "_id" (apply_set s d) = obj_get "_id" d ->
  doc_ok B (apply_set s d) = true ->
  updateOne B q s (app pre (d :: post))
  = Some (app pre (apply_set s d :: post), 1,
          if jval_eqb (JObj (apply_set s d)) (JObj d) then 0 else 1).
Proof.
  intros Hpre Hd Hp Hid Hok. induction pre as [|e pre IH]; cbn [app updateOne forallb] in *.
  - rewrite Hd. unfold set_fields. rewrite Hp. cbv iota.
    rewrite Hid, opt_jval_eqb_refl, Hok. reflexivity.
  - destruct (match_query B q e); simpl in *; [discriminate|].
    rewrite (IH Hpre). reflexivity.
Qed.

Lemma coll_docs_assoc st dbn c pre d post :
  coll_docs st dbn c = app pre (d :: post) ->
  assoc_get c (server st dbn) = Some (app pre (d :: post)).
Proof.
  intros H. unfold coll_docs in H.
  destruct (assoc_get c (server st dbn)); [congruence|destruct pre; discriminate].
Qed.

(** Update then read, by a valid ObjectId: when some document has that
    primary key and the patch sets plain fields (no dotted path, no
    operator, so no conflict with [updatedAt]) that the server accepts and
    can store, the update answers 200 and a read of the same id returns the
    first such document as updated. *)
Theorem update_then_get B st dbn c id patch now d :
  db st = Some dbn -> ObjectId_isValid id = true ->
  List.find (fun e => match_eq (obj_get "_id" e) (new_ObjectId id)) (coll_docs st dbn c)
  = Some d ->
  plain_set (update_set patch now) = true -> update_ok B (update_set patch now) = true ->
  doc_ok B (apply_set (update_set patch now) d) = true ->
  status (snd (update_doc B st c id patch now)) = 200 /\
  snd (get_one B (fst (update_doc B st c id patch now)) c id)
  = mkResponse 200 (PDoc (apply_set (update_set patch now) d)).
Proof.
  intros Hdb Hv Hf Hp Hu Hok.
  destruct (find_split _ _ _ Hf) as (pre & post & Hdocs & Hpre & Hx).
  pose proof Hpre as Hpre'. rewrite <- forallb_pk_filter with (B := B) in Hpre'.
  assert (Hx' : match_query B (pk_filter id) d = true) by (rewrite pk_filter_match; exact Hx).
  pose proof (coll_docs_assoc _ _ _ _ _ _ Hdocs) as Hc.
  unfold update_doc, mutation_filter. rewrite Hdb, Hv, Hu, Hdocs. simpl negb. cbv iota zeta.
  rewrite (updateOne_split_full B _ _ _ _ post Hpre' Hx' Hp (apply_update_keeps_id patch now d) Hok).
  simpl. split; [reflexivity|].
  unfold get_one. simpl. rewrite Hdb, Hv. unfold findOne.
  rewrite coll_docs_set_coll, !String.eqb_refl, Hc. simpl.
  rewrite find_pk_filter, find_app_first; [reflexivity|exact Hpre|].
  rewrite apply_update_keeps_id. exact Hx.
Qed.

Lemma filter_nil_forallb {A} (p : A -> bool) l :
  List.filter p l = [] -> forallb (fun e => negb (p e)) l = true.
Proof.
  induction l as [|x l IH]; simpl; [reflexivity|].
  destruct (p x); simpl; [discriminate|]. exact IH.
Qed.

Lemma forallb_filter_nil {A} (p : A -> bool) l :
  forallb (fun e => negb (p e)) l = true -> List.filter p l = [].
Proof.
  induction l as [|x l IH]; simpl; [reflexivity|].
  destruct (p x); simpl; [discriminate|]. exact IH.
Qed.

(** Deleting twice by a valid ObjectId that is the primary key of exactly
    one document: the first delete removes it, the second answers 404. *)
Theorem delete_twice_404 B st dbn c id :
  db st = Some dbn -> ObjectId_isValid id = true ->
  length (List.filter (fun e => match_eq (obj_get "_id" e) (new_ObjectId id))
            (coll_docs st dbn c)) = 1%nat ->
  snd (delete_doc B st c id) = mkResponse 200 (PCount "deletedCount" 1) /\
  snd (delete_doc B (fst (delete_doc B st c id)) c id) = err 404 msg_not_found.
Proof.
  intros Hdb Hv Hlen.
  set (p := fun e => match_eq (obj_get "_id" e) (new_ObjectId id)) in *.
  destruct (List.find p (coll_docs st dbn c)) as [d|] eqn:Hf.
  2: { apply find_none_forallb, forallb_filter_nil in Hf. rewrite Hf in Hlen. discriminate. }
  destruct (find_split _ _ _ Hf) as (pre & post & Hdocs & Hpre & Hx).
  rewrite Hdocs, List.filter_app in Hlen. simpl in Hlen. fold p in Hlen. rewrite Hx in Hlen.
  rewrite (forallb_filter_nil _ _ Hpre) in Hlen. simpl in Hlen.
  assert (Hpost : forallb (fun e => negb (p e)) post = true).
  { apply filter_nil_forallb. destruct (List.filter p post); [reflexivity|discriminate]. }
  pose proof Hpre as Hpre'. unfold p in Hpre'.
  rewrite <- forallb_pk_filter with (B := B) in Hpre'.
  assert (Hx' : match_query B (pk_filter id) d = true) by (rewrite pk_filter_match; exact Hx).
  pose proof (coll_docs_assoc _ _ _ _ _ _ Hdocs) as Hc.
  assert (Hrest : forallb (fun e => negb (match_query B (pk_filter id) e)) (app pre post) = true).
  { rewrite forallb_pk_filter, forallb_app. unfold p in Hpre, Hpost. rewrite Hpre, Hpost.
    reflexivity. }
  assert (H1 : delete_doc B st c id
               = (set_coll st dbn c (app pre post), mkResponse 200 (PCount "deletedCount" 1))).
  { unfold delete_doc, mutation_filter. rewrite Hdb, Hv, Hdocs.
    rewrite (deleteOne_split B _ _ _ _ Hpre' Hx'). reflexivity. }
  rewrite H1. split; [reflexivity|].
  unfold delete_doc, mutation_filter. simpl. rewrite Hdb, Hv.
  rewrite coll_docs_set_coll, !String.eqb_refl, Hc. simpl.
  rewrite (deleteOne_none B _ _ Hrest). reflexivity.
Qed.


(** ** Browsing: defaults and edge cases *)

(** Without a search term and with no filter (or the filter [{}]), browse
    counts the whole collection: [totalDocuments] is the number of
    documents it holds. *)
Theorem browse_unfiltered_total B st dbn c q :
  isConnected st = true -> db st = Some dbn ->
  match qparam q "search" with None => True | Some s => s = QStr EmptyString end ->
  match qparam q "filter" with None => True | Some f => qstring f = "{}" end ->
  match snd (browse B st c q) with
  | mkResponse 200 (PBrowse _ _ pg) => totalDocuments pg = Z.of_nat (length (coll_docs st dbn c))
  | _ => True
  end.
Proof.
  intros Hc Hdb Hs Hf. unfold browse. rewrite Hc, Hdb. cbv zeta.
  assert (Hb : build_query B (search_term (qparam q "search")) (filter_term (qparam q "filter"))
               = Some []).
  { destruct (qparam q "search") as [s|]; [subst s|];
      destruct (qparam q "filter") as [f|]; unfold filter_term;
      [rewrite Hf; reflexivity|reflexivity|rewrite Hf; reflexivity|reflexivity]. }
  rewrite Hb. destruct (query_ok B []); [|exact I]. simpl negb. cbv iota.
  replace (List.filter (match_query B []) (coll_docs st dbn c)) with (coll_docs st dbn c)
    by (symmetry; apply forallb_filter_id, forallb_forall; reflexivity).
  destruct (find_docs _ _ _ _ _ _); reflexivity.
Qed.



(** [currentPage] and [documentsPerPage] are read with [parseInt], but
    [hasPrevPage] and [totalPages] convert [page] and [limit] with Number:
    a [page] such as [2x] gives [currentPage] 2 with [hasPrevPage] false,
    and a [limit] such as [5x] gives [totalPages] NaN. *)
Theorem browse_number_fields B st c q :
  match snd (browse B st c q) with
  | mkResponse 200 (PBrowse _ _ pg) =>
      currentPage pg = param_parseInt (qparam q "page") 1 /\
      documentsPerPage pg = param_parseInt (qparam q "limit") 50 /\
      (param_number B (qparam q "page") 1 = NNaN -> hasPrevPage pg = false) /\
      (param_number B (qparam q "limit") 50 = NNaN -> totalPages pg = NNaN)
  | _ => True
  end.
Proof.
  unfold browse. destruct (isConnected st), (db st);
    [|destruct (db_closed st); exact I|exact I|exact I]. cbv zeta.
  destruct (build_query _ _ _); [|exact I]. destruct (negb (query_ok B o)); [exact I|].
  destruct (find_docs _ _ _ _ _ _); [|exact I].
  simpl. split; [reflexivity|split; [reflexivity|split]]; intros H; rewrite H; reflexivity.
Qed.

Lemma add_keys_spec acc d :
  (List.NoDup acc -> List.NoDup (add_keys acc d)) /\
  (forall k, In k (add_keys acc d) <-> In k acc \/ In k (map fst d)).
Proof.
  unfold add_keys. revert acc. induction d as [|[k0 v0] d IH]; intros acc; simpl.
  - split; [auto|]. intros k. tauto.
  - destruct (existsb (String.eqb k0) acc) eqn:E;
      [destruct (IH acc) as [IH1 IH2]|destruct (IH (acc ++ [k0])%list) as [IH1 IH2]]; split.
    + exact IH1.
    + intros k. rewrite IH2. apply existsb_exists in E as [k1 [Hin Hk]].
      apply String.eqb_eq in Hk. subst k1. split; [tauto|].
      intros [H|[H|H]]; [auto|subst; auto|auto].
    + intros Hnd. apply IH1. apply List.NoDup_app; [exact Hnd|constructor; [intros []|constructor]|].
      intros a Ha [<-|[]]. apply Bool.not_true_iff_false in E. apply E.
      apply existsb_exists. exists k0. split; [exact Ha|apply String.eqb_refl].
    + intros k. rewrite IH2, in_app_iff. simpl. tauto.
Qed.

(** The [fields] of a browse response list every key of the returned
    documents, once each, and nothing else. *)
Theorem fields_of_keys docs :
  List.NoDup (fields_of docs) /\
  forall k, In k (fields_of docs) <-> exists d, In d docs /\ In k (map fst d).
Proof.
  unfold fields_of.
  assert (H : forall acc, (List.NoDup acc -> List.NoDup (fold_left add_keys docs acc)) /\
            forall k, In k (fold_left add_keys docs acc)
                      <-> In k acc \/ exists d, In d docs /\ In k (map fst d)).
  { induction docs as [|d docs IH]; intros acc; simpl.
    - split; [auto|]. intros k. split; [auto|]. intros [H|(d & [] & _)]. exact H.
    - destruct (IH (add_keys acc d)) as [IH1 IH2]. destruct (add_keys_spec acc d) as [A1 A2].
      split; [auto|]. intros k. rewrite IH2, A2. split.
      + intros [[H|H]|(d' & Hd' & Hk)]; [auto|right; eauto|right; eauto].
      + intros [H|(d' & [<-|Hd'] & Hk)]; auto. right. eauto. }
  destruct (H []) as [H1 H2]. split; [apply H1; constructor|].
  intros k. rewrite H2. simpl. tauto.
Qed.

(** ** Updates: the [updatedAt] stamp *)

Lemma obj_set_keys k v o x :
  In x (map fst (obj_set k v o)) -> x = k \/ In x (map fst o).
Proof.
  induction o as [|[k0 v0] o IH]; simpl.
  - intros [H|[]]. auto.
  - destruct (String.eqb k k0); simpl; intros [H|H]; auto.
    destruct (IH H); auto.
Qed.

Lemma obj_set_nodup k v o :
  List.NoDup (map fst o) -> List.NoDup (map fst (obj_set k v o)).
Proof.
  induction o as [|[k0 v0] o IH]; simpl; intros Hnd.
  - constructor; [intros []|constructor].
  - inversion Hnd as [|? ? Hn Hnd']; subst.
    destruct (String.eqb k k0) eqn:E; simpl; [exact Hnd|].
    constructor; [|auto]. intros Hin. destruct (obj_set_keys _ _ _ _ Hin) as [->|H]; [|auto].
    rewrite String.eqb_refl in E. discriminate.
Qed.

Lemma obj_spread_nodup acc src :
  List.NoDup (map fst acc) -> List.NoDup (map fst (obj_spread acc src)).
Proof.
  unfold obj_spread. revert acc.
  induction src as [|kv src IH]; simpl; intros acc Hnd; [exact Hnd|].
  apply IH, obj_set_nodup, Hnd.
Qed.

Lemma obj_set_in k v o : In (k, v) (obj_set k v o).
Proof.
  induction o as [|[k0 v0] o IH]; simpl; [auto|].
  destruct (String.eqb k k0) eqn:E; simpl; [|auto].
  apply String.eqb_eq in E. subst. auto.
Qed.

Lemma obj_spread_get acc src k v :
  List.NoDup (map fst src) -> In (k, v) src -> obj_get k (obj_spread acc src) = Some v.
Proof.
  unfold obj_spread. revert acc.
  induction src as [|[k1 v1] src IH]; simpl; intros acc Hnd Hin; [destruct Hin|].
  inversion Hnd as [|? ? Hn Hnd']; subst.
  destruct Hin as [Heq|Hin]; [|apply IH; assumption].
  injection Heq as -> ->.
  change (obj_get k (obj_spread (obj_set k v acc) src) = Some v).
  rewrite obj_get_spread_other.
  - rewrite obj_get_set, String.eqb_refl. reflexivity.
  - apply List.Forall_forall. intros [k2 v2] Hk2 Heq. simpl in Heq. subst k2.
    apply Hn. apply (in_map fst) in Hk2. exact Hk2.
Qed.

Lemma apply_set_get s d k v :
  List.NoDup (map fst s) -> In (k, v) s -> obj_get k (apply_set s d) = Some v.
Proof.
  intros Hnd Hin. unfold apply_set.
  change (obj_get k (obj_spread d (sort_fields s)) = Some v).
  apply obj_spread_get.
  - exact (Permutation_NoDup (Permutation_map fst (Permutation_sym (sort_fields_perm s))) Hnd).
  - exact (Permutation_in _ (Permutation_sym (sort_fields_perm s)) Hin).
Qed.

Lemma apply_update_stamp patch now d :
  obj_get "updatedAt" (apply_set (update_set patch now) d) = Some (JDate now).
Proof.
  apply apply_set_get; unfold update_set.
  - apply obj_set_nodup, obj_spread_nodup. constructor.
  - apply obj_set_in.
Qed.

Lemma jval_eqb_obj_date xs ys k n :
  jval_eqb (JObj xs) (JObj ys) = true ->
  obj_get k xs = Some (JDate n) -> obj_get k ys = Some (JDate n).
Proof.
  revert ys. induction xs as [|[k1 x] xs IH]; intros ys Heq Hget; [discriminate|].
  destruct ys as [|[k1' y] ys]; [discriminate|].
  change ((String.eqb k1 k1' && jval_eqb x y && jval_eqb (JObj xs) (JObj ys))%bool = true)
    in Heq.
  apply andb_true_iff in Heq as [Heq Hrest]. apply andb_true_iff in Heq as [Hk Hxy].
  apply String.eqb_eq in Hk. subst k1'. simpl in *.
  destruct (String.eqb k k1).
  - injection Hget as ->. destruct y; try discriminate. simpl in Hxy.
    apply Z.eqb_eq in Hxy. subst. reflexivity.
  - apply IH; assumption.
Qed.

(** Every update stamps [updatedAt] with the current time, so a successful
    update of a document not already stamped with that exact time reports
    [modifiedCount] 1, even when the body changes no other field (an empty
    body, or the same values).  The patch is one of plain fields (no dotted
    path such as [updatedAt.x], which the server rejects as conflicting
    with [updatedAt]), the server accepts the update and can store the
    result. *)
Theorem update_stamps_modified B st dbn c id patch now d :
  db st = Some dbn ->
  List.find (match_query B (mutation_filter id)) (coll_docs st dbn c) = Some d ->
  obj_get "updatedAt" d <> Some (JDate now) ->
  plain_set (update_set patch now) = true -> update_ok B (update_set patch now) = true ->
  doc_ok B (apply_set (update_set patch now) d) = true ->
  snd (update_doc B st c id patch now) = mkResponse 200 (PCount "modifiedCount" 1).
Proof.
  intros Hdb Hf Hn Hp Hu Hok.
  destruct (find_split _ _ _ Hf) as (pre & post & Hdocs & Hpre & Hx).
  unfold update_doc. rewrite Hdb, Hu, Hdocs. simpl negb. cbv iota zeta.
  rewrite (updateOne_split_full B _ _ _ _ _ Hpre Hx Hp (apply_update_keeps_id patch now d) Hok).
  destruct (jval_eqb _ _) eqn:E; [|reflexivity].
  exfalso. apply Hn. apply (jval_eqb_obj_date _ _ _ _ E). apply apply_update_stamp.
Qed.

(** ** Witnesses of the further properties *)


Lemma failed_connect_closes_handle_witness :
  let B := Demo.builtins_demo in
  let st := Demo.connected [("sessions", Demo.bulk_docs)] in
  let u := "mongodb://h/admin" in
  let b := [("url", JStr u)] in
  (mongoClient st = true /\ db st = Some "admin" /\ obj_get "url" b = Some (JStr u) /\
   String.eqb u EmptyString = false /\ MongoClient_ok B u = true) /\
  snd (connect B st b ConnectRefused) = err 500 "Connection failed" /\
  snd (get_one B (fst (connect B st b ConnectRefused)) "sessions" Demo.oid1)
  = err 500 msg_client_closed.
Proof.
  intros B st u b.
  split; [repeat split; vm_compute; reflexivity|].
  destruct (failed_connect_closes_handle B st b u "admin" eq_refl eq_refl eq_refl eq_refl eq_refl)
    as (H1 & _ & _ & _ & _ & H2 & _).
  split; [exact H1|apply H2].
Defined.


Lemma data_requests_keep_connection_witness :
  let rq := mkRequest DELETE ["api"; "collections"; "sessions"; Demo.oid1] [] [] 0 ConnectOk false in
  let B := Demo.builtins_demo in
  let st := Demo.connected [("sessions", Demo.bulk_docs)] in
  route_of B (rq_method rq) (rq_path rq) <> RConnect /\
  route_of B (rq_method rq) (rq_path rq) <> RDisconnect /\
  mongoClient (fst (serve B st rq)) = mongoClient st /\ db (fst (serve B st rq)) = db st /\
  isConnected (fst (serve B st rq)) = isConnected st.
Proof.
  split; [vm_compute; discriminate|]. split; [vm_compute; discriminate|].
  apply data_requests_keep_connection; vm_compute; discriminate.
Defined.

Lemma update_then_get_witness :
  let B := Demo.builtins_demo in
  let st := Demo.connected [("sessions", Demo.bulk_docs)] in
  let patch := [("name", JStr "b")] in
  let d := [("_id", JOid Demo.oid1); ("name", JStr "a")] in
  (db st = Some "admin" /\ ObjectId_isValid Demo.oid1 = true /\
   List.find (fun e => match_eq (obj_get "_id" e) (new_ObjectId Demo.oid1))
     (coll_docs st "admin" "sessions") = Some d /\
   plain_set (update_set patch 7) = true /\ update_ok B (update_set patch 7) = true /\
   doc_ok B (apply_set (update_set patch 7) d) = true) /\
  status (snd (update_doc B st "sessions" Demo.oid1 patch 7)) = 200 /\
  snd (get_one B (fst (update_doc B st "sessions" Demo.oid1 patch 7)) "sessions" Demo.oid1)
  = mkResponse 200 (PDoc (apply_set (update_set patch 7) d)).
Proof.
  split; [repeat split; vm_compute; reflexivity|].
  apply update_then_get with (dbn := "admin"); vm_compute; reflexivity.
Defined.

Lemma delete_twice_404_witness :
  let B := Demo.builtins_demo in
  let st := Demo.connected [("sessions", Demo.bulk_docs)] in
  (db st = Some "admin" /\ ObjectId_isValid Demo.oid1 = true /\
   length (List.filter (fun e => match_eq (obj_get "_id" e) (new_ObjectId Demo.oid1))
             (coll_docs st "admin" "sessions")) = 1%nat) /\
  snd (delete_doc B st "sessions" Demo.oid1) = mkResponse 200 (PCount "deletedCount" 1) /\
  snd (delete_doc B (fst (delete_doc B st "sessions" Demo.oid1)) "sessions" Demo.oid1)
  = err 404 msg_not_found.
Proof.
  split; [split; [reflexivity|split; vm_compute; reflexivity]|].
  apply delete_twice_404 with (dbn := "admin"); [reflexivity|vm_compute; reflexivity..].
Defined.


Lemma browse_unfiltered_total_witness :
  let B := Demo.builtins_demo in
  let st := Demo.connected [("sessions", Demo.bulk_docs)] in
  let q := [("limit", QStr "2")] in
  (isConnected st = true /\ db st = Some "admin") /\
  status (snd (browse B st "sessions" q)) = 200 /\
  match snd (browse B st "sessions" q) with
  | mkResponse 200 (PBrowse _ _ pg) =>
      totalDocuments pg = Z.of_nat (length (coll_docs st "admin" "sessions"))
  | _ => True
  end.
Proof.
  split; [split; reflexivity|]. split; [vm_compute; reflexivity|].
  apply browse_unfiltered_total; [reflexivity|reflexivity|exact I|exact I].
Defined.


Lemma update_stamps_modified_witness :
  let B := Demo.builtins_demo in
  let st := Demo.connected [("sessions", Demo.bulk_docs)] in
  let d := [("_id", JOid Demo.oid1); ("name", JStr "a")] in
  (db st = Some "admin" /\
   List.find (match_query B (mutation_filter Demo.oid1)) (coll_docs st "admin" "sessions")
   = Some d /\
   obj_get "updatedAt" d <> Some (JDate 7) /\
   plain_set (update_set [] 7) = true /\ update_ok B (update_set [] 7) = true /\
   doc_ok B (apply_set (update_set [] 7) d) = true) /\
  snd (update_doc B st "sessions" Demo.oid1 [] 7) = mkResponse 200 (PCount "modifiedCount" 1).
Proof.
  split.
  { split; [reflexivity|]. split; [vm_compute; reflexivity|]. split; [discriminate|].
    repeat split; vm_compute; reflexivity. }
  apply update_stamps_modified with (dbn := "admin")
    (d := [("_id", JOid Demo.oid1); ("name", JStr "a")]);
    [reflexivity|vm_compute; reflexivity|discriminate|vm_compute; reflexivity..].
Defined.
